(** * image2url: upload validation, key derivation and the single put-object call

    Shallow embedding of the client library (the compiled [index.js] of the
    package): the helper functions at the bottom of the module, the
    [Image2UrlClient] class and the three upload entry points.

    Conventions of the model.
    - A JavaScript string is a [string]; each [ascii] stands for one code
      unit in the range 0..255 (Latin-1).  [toLowerCase] and [trim] are
      given on that range.
    - A [number] holding a byte count or a millisecond clock is a [Z].
    - [undefined] is [None]; [a ?? b] is a [match] on the option, so that
      an empty string counts as a supplied value, exactly as in the source.
    - [throw new Error(...)] is the [Throw] result; [async] functions are
      run to completion, a rejected promise being a [Throw] as well.
    - The S3 endpoint is a record of stored objects and of the commands it
      was sent; the clock, the UUID source, the file system and the outcome
      of a send are read from a [World]. *)

From Stdlib Require Import ZArith Ascii.
From Stdlib.Strings Require Import Byte.
From stdpp Require Import base option list gmap strings pretty.

Local Open Scope Z_scope.

(** ** JavaScript string primitives *)

Module Js.

Definition is_slash (c : ascii) : bool := bool_decide (c = "/"%char).

(** [s.startsWith(p)] *)
Definition startsWith (p s : string) : bool := String.prefix p s.

(** Code units that [String.prototype.trim] removes (0..255). *)
Definition is_white (c : ascii) : bool :=
  match c with
  | "009" | "010" | "011" | "012" | "013" | " " | "160" => true
  | _ => false
  end%char.

Fixpoint trimStart (s : string) : string :=
  match s with
  | String c r => if is_white c then trimStart r else s
  | EmptyString => EmptyString
  end.

Fixpoint trimEnd (s : string) : string :=
  match s with
  | String c r =>
      match trimEnd r with
      | EmptyString => if is_white c then EmptyString else String c EmptyString
      | r' => String c r'
      end
  | EmptyString => EmptyString
  end.

(** [s.trim()] *)
Definition trim (s : string) : string := trimEnd (trimStart s).

Definition lower_char (c : ascii) : ascii :=
  let n := N_of_ascii c in
  if ((65 <=? n) && (n <=? 90))%N || ((192 <=? n) && (n <=? 222) && negb (n =? 215))%N
  then ascii_of_N (n + 32) else c.

(** [s.toLowerCase()] *)
Fixpoint toLowerCase (s : string) : string :=
  match s with
  | String c r => String (lower_char c) (toLowerCase r)
  | EmptyString => EmptyString
  end.

(** [s.replace(/^\/+/, '')] *)
Fixpoint dropLeadingSlashes (s : string) : string :=
  match s with
  | String c r => if is_slash c then dropLeadingSlashes r else s
  | EmptyString => EmptyString
  end.

(** [s.replace(/\/+$/, '')] *)
Fixpoint dropTrailingSlashes (s : string) : string :=
  match s with
  | String c r =>
      match dropTrailingSlashes r with
      | EmptyString => if is_slash c then EmptyString else String c EmptyString
      | r' => String c r'
      end
  | EmptyString => EmptyString
  end.

(** [s.replace(/\\/g, '/')] *)
Fixpoint backslashesToSlashes (s : string) : string :=
  match s with
  | String c r =>
      String (if bool_decide (c = "\"%char) then "/"%char else c)
             (backslashesToSlashes r)
  | EmptyString => EmptyString
  end.

(** [s.replace('.', '')]: a string pattern replaces the first match only. *)
Fixpoint removeFirstDot (s : string) : string :=
  match s with
  | String c r => if bool_decide (c = "."%char) then r else String c (removeFirstDot r)
  | EmptyString => EmptyString
  end.

(** [s.slice(a, b)] for [0 <= a]. *)
Definition slice (a b : Z) (s : string) : string :=
  String.substring (Z.to_nat a) (Z.to_nat (b - a)) s.

(** Truthiness of a string value. *)
Definition truthy (s : string) : bool := negb (bool_decide (s = "")).

End Js.

(** ** Node's [path] module (POSIX flavour)

    [path.extname] and [path.basename] scan the path from its last code
    unit to its first; both are transcribed as that loop, with the
    sentinel [-1] of the original. *)

Module NodePath.

Record ExtScan := {
  startDot : Z;
  startPart : Z;
  end_ : Z;
  matchedSlash : bool;
  preDotState : Z;
}.

Definition extInit : ExtScan :=
  {| startDot := -1; startPart := 0; end_ := -1;
     matchedSlash := true; preDotState := 0 |}.

(** One pass of the loop body at index [i]; [inl] is [break]. *)
Definition extStep (c : ascii) (i : Z) (st : ExtScan) : ExtScan + ExtScan :=
  if Js.is_slash c then
    if negb (matchedSlash st) then
      inl {| startDot := startDot st; startPart := i + 1; end_ := end_ st;
             matchedSlash := matchedSlash st; preDotState := preDotState st |}
    else inr st
  else
    let st1 :=
      if end_ st =? -1 then
        {| startDot := startDot st; startPart := startPart st; end_ := i + 1;
           matchedSlash := false; preDotState := preDotState st |}
      else st in
    if bool_decide (c = "."%char) then
      if startDot st1 =? -1 then
        inr {| startDot := i; startPart := startPart st1; end_ := end_ st1;
               matchedSlash := matchedSlash st1; preDotState := preDotState st1 |}
      else if negb (preDotState st1 =? 1) then
        inr {| startDot := startDot st1; startPart := startPart st1; end_ := end_ st1;
               matchedSlash := matchedSlash st1; preDotState := 1 |}
      else inr st1
    else if negb (startDot st1 =? -1) then
      inr {| startDot := startDot st1; startPart := startPart st1; end_ := end_ st1;
             matchedSlash := matchedSlash st1; preDotState := -1 |}
    else inr st1.

(** [for (let i = n - 1; i >= 0; --i)] *)
Fixpoint extLoop (path : string) (n : nat) (st : ExtScan) : ExtScan :=
  match n with
  | O => st
  | S i =>
      match String.get i path with
      | Some c =>
          match extStep c (Z.of_nat i) st with
          | inl st' => st'
          | inr st' => extLoop path i st'
          end
      | None => st
      end
  end.

Definition extname (path : string) : string :=
  let st := extLoop path (String.length path) extInit in
  if (startDot st =? -1) || (end_ st =? -1) || (preDotState st =? 0)
     || ((preDotState st =? 1) && (startDot st =? end_ st - 1)
         && (startDot st =? startPart st + 1))
  then ""
  else Js.slice (startDot st) (end_ st) path.

Record BaseScan := {
  bStart : Z;
  bEnd : Z;
  bMatchedSlash : bool;
}.

Definition baseStep (c : ascii) (i : Z) (st : BaseScan) : BaseScan + BaseScan :=
  if Js.is_slash c then
    if negb (bMatchedSlash st) then
      inl {| bStart := i + 1; bEnd := bEnd st; bMatchedSlash := bMatchedSlash st |}
    else inr st
  else if bEnd st =? -1 then
    inr {| bStart := bStart st; bEnd := i + 1; bMatchedSlash := false |}
  else inr st.

Fixpoint baseLoop (path : string) (n : nat) (st : BaseScan) : BaseScan :=
  match n with
  | O => st
  | S i =>
      match String.get i path with
      | Some c =>
          match baseStep c (Z.of_nat i) st with
          | inl st' => st'
          | inr st' => baseLoop path i st'
          end
      | None => st
      end
  end.

(** [path.basename(p)] without a suffix argument. *)
Definition basename (path : string) : string :=
  let st := baseLoop path (String.length path)
              {| bStart := 0; bEnd := -1; bMatchedSlash := true |} in
  if bEnd st =? -1 then "" else Js.slice (bStart st) (bEnd st) path.

End NodePath.

(** ** Node's [Buffer.from(text, 'base64')]

    The decoder never throws.  Code units outside the base64 alphabet
    (standard or URL-safe) are skipped, the first ['='] ends the input, every
    four sextets give three bytes, and a tail of three or two sextets gives
    two bytes or one; a tail of one sextet is dropped. *)

Module NodeBuffer.

Definition unbase64 (c : ascii) : option N :=
  let n := N_of_ascii c in
  if ((65 <=? n) && (n <=? 90))%N then Some (n - 65)%N
  else if ((97 <=? n) && (n <=? 122))%N then Some (n - 71)%N
  else if ((48 <=? n) && (n <=? 57))%N then Some (n + 4)%N
  else if ((n =? 43) || (n =? 45))%N then Some 62%N
  else if ((n =? 47) || (n =? 95))%N then Some 63%N
  else None.

Fixpoint sextets (s : string) : list N :=
  match s with
  | String c r =>
      if bool_decide (c = "="%char) then []
      else match unbase64 c with
           | Some v => v :: sextets r
           | None => sextets r
           end
  | EmptyString => []
  end.

Definition u8 (n : N) : byte := byte_of_ascii (ascii_of_N n).

Definition byte0 (hi lo : N) : byte :=
  u8 (N.lor (N.shiftl (N.land hi 63) 2) (N.shiftr (N.land lo 48) 4)).
Definition byte1 (hi lo : N) : byte :=
  u8 (N.lor (N.shiftl (N.land hi 15) 4) (N.shiftr (N.land lo 60) 2)).
Definition byte2 (hi lo : N) : byte :=
  u8 (N.lor (N.shiftl (N.land hi 3) 6) (N.land lo 63)).

Fixpoint groups (l : list N) : list byte :=
  match l with
  | a :: b :: c :: d :: r => byte0 a b :: byte1 b c :: byte2 c d :: groups r
  | [a; b; c] => [byte0 a b; byte1 b c]
  | [a; b] => [byte0 a b]
  | _ => []
  end.

Definition fromBase64 (s : string) : list byte := groups (sextets s).

End NodeBuffer.

(** ** Results and errors *)

(** The [Error] values the module throws, one constructor per [throw] site
    (and one per rejected external call). *)
Inductive Error :=
  | MissingConfig (field : string)     (* requireValue *)
  | EmptyFile                          (* uploadBuffer, length 0 *)
  | FileTooLarge (limit : Z)           (* uploadBuffer, length > maxSize *)
  | NoContentType                      (* ensureImageContentType, falsy *)
  | NotImage (contentType : string)    (* ensureImageContentType, prefix *)
  | NotAFile (filePath : string)       (* uploadFile, stats.isFile() *)
  | FsFailure (reason : string)        (* fs.stat / fs.readFile rejected *)
  | SendFailure (reason : string).     (* client.send rejected *)

Inductive Result (A : Type) :=
  | Ok (a : A)
  | Throw (e : Error).
Arguments Ok {A} a.
Arguments Throw {A} e.

(** [x.toFixed(1)] for [x = limit / (1024 * 1024)], exact while
    [|limit| < 2^53]: the nearest tenth, the larger one on a tie. *)
Definition toFixed1_MiB (limit : Z) : string :=
  let a := Z.abs limit in
  let n := (20 * a + 1048576) / 2097152 in
  (if limit <? 0 then "-" else "") +:+ pretty (n / 10) +:+ "." +:+ pretty (n mod 10).

Definition message (e : Error) : string :=
  match e with
  | MissingConfig field => "Missing " +:+ field +:+ " in Image2Url configuration."
  | EmptyFile => "Cannot upload an empty file."
  | FileTooLarge limit =>
      "File is larger than the allowed limit (" +:+ toFixed1_MiB limit +:+ " MB)."
  | NoContentType =>
      "Unable to determine content type. Provide a contentType or filename with an image extension."
  | NotImage ct => "Only image uploads are allowed. Received content type: " +:+ ct
  | NotAFile p => "Path is not a file: " +:+ p
  | FsFailure r => r
  | SendFailure r => r
  end.

(** The synchronous checks of [uploadBuffer]. *)
Definition is_validation (e : Error) : bool :=
  match e with
  | EmptyFile | FileTooLarge _ | NoContentType | NotImage _ => true
  | _ => false
  end.

(** ** Constants and lookup tables *)

Definition DEFAULT_MAX_SIZE : Z := 2 * 1024 * 1024.
Definition DEFAULT_CACHE_CONTROL : string := "public, max-age=31536000".

Definition MIME_BY_EXT : gmap string string :=
  list_to_map [
    (".jpg", "image/jpeg"); (".jpeg", "image/jpeg"); (".png", "image/png");
    (".gif", "image/gif"); (".webp", "image/webp"); (".bmp", "image/bmp");
    (".svg", "image/svg+xml"); (".tif", "image/tiff"); (".tiff", "image/tiff");
    (".ico", "image/x-icon") ].

Definition EXT_BY_MIME : gmap string string :=
  list_to_map [
    ("image/jpeg", "jpg"); ("image/png", "png"); ("image/gif", "gif");
    ("image/webp", "webp"); ("image/bmp", "bmp"); ("image/svg+xml", "svg");
    ("image/tiff", "tiff"); ("image/x-icon", "ico") ].

(** Both tables are plain object literals, so a property read also finds
    the members of [Object.prototype].  None of those names is empty or
    starts with a dot, which is all that [guessContentType] ever looks up;
    [guessExtension] and [decodeBase64] look up an arbitrary MIME string
    and are modelled with the inherited members. *)
Definition objectPrototypeFunctions : list string :=
  [ "constructor"; "hasOwnProperty"; "isPrototypeOf"; "propertyIsEnumerable";
    "toLocaleString"; "toString"; "valueOf"; "__defineGetter__";
    "__defineSetter__"; "__lookupGetter__"; "__lookupSetter__" ].

(** The text of [`${v}`] for a value [v] read from a table under [name]. *)
Definition tableText (table : gmap string string) (name : string) : option string :=
  match table !! name with
  | Some v => Some v
  | None =>
      if bool_decide (name ∈ objectPrototypeFunctions) then
        Some ("function "
              +:+ (if bool_decide (name = "constructor") then "Object" else name)
              +:+ "() { [native code] }")
      else if bool_decide (name = "__proto__") then Some "[object Object]"
      else None
  end.

(** ** Types of the public interface *)

Module Config.
Record t := {
  accountId : string;
  accessKeyId : string;
  secretAccessKey : string;
  bucket : string;
  publicUrl : string;
  keyPrefix : option string;
  maxSizeBytes : option Z;
  cacheControl : option string;
}.
End Config.

(** An absent [options] argument behaves as the record with every field
    absent: the source reads it through [options?.field] and [...options]. *)
Module Options.
Record t := {
  key : option string;
  originalName : option string;
  contentType : option string;
  metadata : option (gmap string string);
}.
Definition none : t :=
  {| key := None; originalName := None; contentType := None; metadata := None |}.
End Options.

Module Uploaded.
Record t := {
  url : string;
  key : string;
  bucket : string;
  size : Z;
  type : string;
  etag : option string;
}.
End Uploaded.

(** The input of [PutObjectCommand]. *)
Module Put.
Record t := {
  Bucket : string;
  Key : string;
  Body : list byte;
  ContentType : string;
  ContentLength : Z;
  CacheControl : string;
  Metadata : gmap string string;
}.
End Put.

Record S3Client := {
  region : string;
  endpoint : string;
  credentials : string * string;
}.

(** The private fields of [Image2UrlClient]. *)
Module Client.
Record t := {
  client : S3Client;
  bucket : string;
  publicUrl : string;
  prefix : string;
  maxSize : Z;
  cacheControl : string;
}.
End Client.

(** [Buffer | ArrayBuffer | Uint8Array] *)
Inductive BinaryData :=
  | OfBuffer (bytes : list byte)
  | OfArrayBuffer (bytes : list byte)
  | OfUint8Array (buffer : list byte) (byteOffset byteLength : nat).

(** ** The world outside the module *)

Inductive SendOutcome :=
  | Stored (ETag : option string)
  | Rejected (reason : string).

Record World := {
  Date_now : Z;                                (* Date.now() *)
  randomUUID : string;                         (* randomUUID() *)
  toISOString : string;                        (* new Date().toISOString() *)
  fs_stat : string → string + bool;            (* fs.stat(p), then isFile() *)
  fs_readFile : string → string + list byte;   (* fs.readFile(p) *)
  s3_send : Put.t → SendOutcome;               (* the endpoint's answer *)
}.

(** The object store behind the endpoint: what it holds, and every
    put-object command it has been sent, oldest first. *)
Record Remote := {
  objects : gmap (string * string) Put.t;
  sent : list Put.t;
}.

Definition emptyRemote : Remote := {| objects := ∅; sent := [] |}.

(** Computations that may throw and may talk to the endpoint. *)
Definition Task (A : Type) : Type := Remote → Result A * Remote.

Definition ret {A} (a : A) : Task A := λ r, (Ok a, r).
Definition throw {A} (e : Error) : Task A := λ r, (Throw e, r).
Definition bind {A B} (m : Task A) (k : A → Task B) : Task B :=
  λ r, match m r with
       | (Ok a, r') => k a r'
       | (Throw e, r') => (Throw e, r')
       end.
Definition lift {A} (x : Result A) : Task A := λ r, (x, r).

Notation "'do' x <- m ; k" := (bind m (λ x, k))
  (at level 10, x name, m at level 100, k at level 200).

(** [await this.client.send(command)] *)
Definition send (w : World) (cmd : Put.t) : Task (option string) :=
  λ r,
    match s3_send w cmd with
    | Stored tag =>
        (Ok tag,
         {| objects := <[(Put.Bucket cmd, Put.Key cmd) := cmd]> (objects r);
            sent := sent r ++ [cmd] |})
    | Rejected reason =>
        (Throw (SendFailure reason),
         {| objects := objects r; sent := sent r ++ [cmd] |})
    end.

(** ** Helper functions of the module *)

Definition requireValue (value field : string) : Result string :=
  if Js.truthy value then Ok value else Throw (MissingConfig field).

Definition trimTrailingSlash (value : string) : string :=
  Js.dropTrailingSlashes value.

Definition trimSlashes (value : string) : string :=
  Js.dropTrailingSlashes (Js.dropLeadingSlashes value).

Definition normalizeKey (key : string) : string :=
  Js.backslashesToSlashes (Js.dropLeadingSlashes key).

Definition buildPublicUrl (base key : string) : string :=
  let normalizedBase := trimTrailingSlash base in
  let normalizedKey := Js.dropLeadingSlashes key in
  normalizedBase +:+ "/" +:+ normalizedKey.

(** The argument is a string at the only call site. *)
Definition ensureImageContentType (contentType : string) : Result string :=
  if negb (Js.truthy contentType) then Throw NoContentType
  else if negb (Js.startsWith "image/" contentType) then Throw (NotImage contentType)
  else Ok contentType.

Definition guessContentType (originalName : option string) : option string :=
  match originalName with
  | Some name =>
      if Js.truthy name then
        let ext := Js.toLowerCase (NodePath.extname name) in
        MIME_BY_EXT !! ext
      else None
  | None => None
  end.

Definition nameExt (originalName : option string) : string :=
  match originalName with
  | Some name =>
      if Js.truthy name
      then Js.toLowerCase (Js.removeFirstDot (NodePath.extname name))
      else ""
  | None => ""
  end.

(** The value [guessExtension] returns is only ever put into the template
    literal of [buildKey]; it is given as the text it becomes there. *)
Definition guessExtension (originalName : option string) (contentType : string)
  : option string :=
  let ext := nameExt originalName in
  if Js.truthy ext then Some ext else tableText EXT_BY_MIME contentType.

Definition toBuffer (data : BinaryData) : list byte :=
  match data with
  | OfBuffer b => b
  | OfArrayBuffer b => b
  | OfUint8Array buffer byteOffset byteLength => take byteLength (drop byteOffset buffer)
  end.

Definition buildMetadata (w : World) (metadata : option (gmap string string))
    (originalName : option string) : gmap string string :=
  let result := match metadata with Some m => m | None => ∅ end in
  let result :=
    match originalName with
    | Some name => if Js.truthy name then <["original-name" := name]> result else result
    | None => result
    end in
  <["upload-time" := toISOString w]> result.

(** The regular expression [/^data:([^;]+);base64,(.+)$/]: the MIME part
    runs to the first semicolon and is not empty; the payload is not empty
    and holds no line terminator. *)
Fixpoint splitAtSemicolon (s : string) : option (string * string) :=
  match s with
  | String c r =>
      if bool_decide (c = ";"%char) then Some ("", r)
      else match splitAtSemicolon r with
           | Some (a, b) => Some (String c a, b)
           | None => None
           end
  | EmptyString => None
  end.

Fixpoint hasLineTerminator (s : string) : bool :=
  match s with
  | String c r =>
      bool_decide (c = "010"%char) || bool_decide (c = "013"%char) || hasLineTerminator r
  | EmptyString => false
  end.

Fixpoint stripPrefix (p s : string) : option string :=
  match p, s with
  | EmptyString, _ => Some s
  | String a p', String b s' => if bool_decide (a = b) then stripPrefix p' s' else None
  | String _ _, EmptyString => None
  end.

Definition matchDataUri (value : string) : option (string * string) :=
  match stripPrefix "data:" value with
  | Some r =>
      match splitAtSemicolon r with
      | Some (mime, r') =>
          match stripPrefix "base64," r' with
          | Some encoded =>
              if Js.truthy mime && Js.truthy encoded && negb (hasLineTerminator encoded)
              then Some (mime, encoded) else None
          | None => None
          end
      | None => None
      end
  | None => None
  end.

Record Decoded := {
  buffer : list byte;
  dContentType : option string;
  dOriginalName : option string;
}.

Definition decodeBase64 (input : string) : Decoded :=
  let value := Js.trim input in
  match matchDataUri value with
  | Some (mime, encoded) =>
      {| buffer := NodeBuffer.fromBase64 encoded;
         dContentType := Some mime;
         dOriginalName :=
           Some ("upload." +:+ default "jpg" (tableText EXT_BY_MIME mime)) |}
  | None =>
      {| buffer := NodeBuffer.fromBase64 value;
         dContentType := None;
         dOriginalName := None |}
  end.

(** ** The client *)

(** [new Image2UrlClient(config)] *)
Definition newClient (config : Config.t) : Result Client.t :=
  match requireValue (Config.bucket config) "bucket" with
  | Throw e => Throw e
  | Ok bucket =>
  match requireValue (Config.publicUrl config) "publicUrl" with
  | Throw e => Throw e
  | Ok publicUrl =>
  let publicUrl := trimTrailingSlash publicUrl in
  let prefix := trimSlashes (default "images" (Config.keyPrefix config)) in
  let maxSize := default DEFAULT_MAX_SIZE (Config.maxSizeBytes config) in
  let cacheControl := default DEFAULT_CACHE_CONTROL (Config.cacheControl config) in
  match requireValue (Config.accountId config) "accountId" with
  | Throw e => Throw e
  | Ok accountId =>
  match requireValue (Config.accessKeyId config) "accessKeyId" with
  | Throw e => Throw e
  | Ok accessKeyId =>
  match requireValue (Config.secretAccessKey config) "secretAccessKey" with
  | Throw e => Throw e
  | Ok secretAccessKey =>
      Ok {| Client.bucket := bucket;
            Client.publicUrl := publicUrl;
            Client.prefix := prefix;
            Client.maxSize := maxSize;
            Client.cacheControl := cacheControl;
            Client.client :=
              {| region := "auto";
                 endpoint := "https://" +:+ accountId +:+ ".r2.cloudflarestorage.com";
                 credentials := (accessKeyId, secretAccessKey) |} |}
  end end end end end.

(** [if (key && key.trim().length > 0)] *)
Definition keyGiven (key : option string) : option string :=
  match key with
  | Some k =>
      if Js.truthy k && (0 <? Z.of_nat (String.length (Js.trim k))) then Some k else None
  | None => None
  end.

Definition buildKey (c : Client.t) (w : World)
    (key originalName : option string) (contentType : string) : string :=
  match keyGiven key with
  | Some k => normalizeKey k
  | None =>
      let extension := default "jpg" (guessExtension originalName contentType) in
      let filename :=
        pretty (Date_now w) +:+ "-" +:+ randomUUID w +:+ "." +:+ extension in
      if Js.truthy (Client.prefix c) then Client.prefix c +:+ "/" +:+ filename
      else filename
  end.

(** The argument of [ensureImageContentType] in [uploadBuffer]:
    [options?.contentType ?? guessContentType(options?.originalName) ?? 'image/jpeg'] *)
Definition resolvedContentType (o : Options.t) : string :=
  match Options.contentType o with
  | Some ct => ct
  | None => default "image/jpeg" (guessContentType (Options.originalName o))
  end.

Definition uploadBuffer (c : Client.t) (w : World)
    (data : BinaryData) (o : Options.t) : Task Uploaded.t :=
  let buffer := toBuffer data in
  if Z.of_nat (length buffer) =? 0 then throw EmptyFile
  else if Z.of_nat (length buffer) >? Client.maxSize c
  then throw (FileTooLarge (Client.maxSize c))
  else
    do contentType <- lift (ensureImageContentType (resolvedContentType o));
    let key := buildKey c w (Options.key o) (Options.originalName o) contentType in
    let metadata := buildMetadata w (Options.metadata o) (Options.originalName o) in
    let uploadCommand :=
      {| Put.Bucket := Client.bucket c;
         Put.Key := key;
         Put.Body := buffer;
         Put.ContentType := contentType;
         Put.ContentLength := Z.of_nat (length buffer);
         Put.CacheControl := Client.cacheControl c;
         Put.Metadata := metadata |} in
    do response <- send w uploadCommand;
    ret {| Uploaded.url := buildPublicUrl (Client.publicUrl c) key;
           Uploaded.key := key;
           Uploaded.bucket := Client.bucket c;
           Uploaded.size := Z.of_nat (length buffer);
           Uploaded.type := contentType;
           Uploaded.etag := response |}.

Definition uploadFile (c : Client.t) (w : World)
    (filePath : string) (o : Options.t) : Task Uploaded.t :=
  match fs_stat w filePath with
  | inl reason => throw (FsFailure reason)
  | inr isFile =>
      if negb isFile then throw (NotAFile filePath)
      else
        match fs_readFile w filePath with
        | inl reason => throw (FsFailure reason)
        | inr buffer =>
            let originalName :=
              default (NodePath.basename filePath) (Options.originalName o) in
            let contentType :=
              match Options.contentType o with
              | Some ct => Some ct
              | None => guessContentType (Some originalName)
              end in
            uploadBuffer c w (OfBuffer buffer)
              {| Options.key := Options.key o;
                 Options.originalName := Some originalName;
                 Options.contentType := contentType;
                 Options.metadata := Options.metadata o |}
        end
  end.

Definition uploadBase64 (c : Client.t) (w : World)
    (base64 : string) (o : Options.t) : Task Uploaded.t :=
  let decoded := decodeBase64 base64 in
  uploadBuffer c w (OfBuffer (buffer decoded))
    {| Options.key := Options.key o;
       Options.originalName :=
         match Options.originalName o with
         | Some n => Some n
         | None => dOriginalName decoded
         end;
       Options.contentType :=
         match Options.contentType o with
         | Some ct => Some ct
         | None => dContentType decoded
         end;
       Options.metadata := Options.metadata o |}.


(** ** Vocabulary of the statements *)

(** The options [uploadFile] passes on to [uploadBuffer]. *)
Definition fileOptions (filePath : string) (o : Options.t) : Options.t :=
  let originalName := default (NodePath.basename filePath) (Options.originalName o) in
  {| Options.key := Options.key o;
     Options.originalName := Some originalName;
     Options.contentType :=
       match Options.contentType o with
       | Some ct => Some ct
       | None => guessContentType (Some originalName)
       end;
     Options.metadata := Options.metadata o |}.

(** The options [uploadBase64] passes on to [uploadBuffer]. *)
Definition base64Options (base64 : string) (o : Options.t) : Options.t :=
  {| Options.key := Options.key o;
     Options.originalName :=
       match Options.originalName o with
       | Some n => Some n
       | None => dOriginalName (decodeBase64 base64)
       end;
     Options.contentType :=
       match Options.contentType o with
       | Some ct => Some ct
       | None => dContentType (decodeBase64 base64)
       end;
     Options.metadata := Options.metadata o |}.

(** The command [uploadBuffer] hands to [send]. *)
Definition uploadCommand (c : Client.t) (w : World) (data : BinaryData)
    (o : Options.t) : Put.t :=
  {| Put.Bucket := Client.bucket c;
     Put.Key := buildKey c w (Options.key o) (Options.originalName o)
                  (resolvedContentType o);
     Put.Body := toBuffer data;
     Put.ContentType := resolvedContentType o;
     Put.ContentLength := Z.of_nat (length (toBuffer data));
     Put.CacheControl := Client.cacheControl c;
     Put.Metadata := buildMetadata w (Options.metadata o) (Options.originalName o) |}.

(** What a successful upload returns. *)
Definition uploaded (c : Client.t) (w : World) (data : BinaryData)
    (o : Options.t) (response : option string) : Uploaded.t :=
  {| Uploaded.url :=
       buildPublicUrl (Client.publicUrl c) (Put.Key (uploadCommand c w data o));
     Uploaded.key := Put.Key (uploadCommand c w data o);
     Uploaded.bucket := Client.bucket c;
     Uploaded.size := Z.of_nat (length (toBuffer data));
     Uploaded.type := resolvedContentType o;
     Uploaded.etag := response |}.

(** The endpoint after it took a command, and after it refused it. *)
Definition stored (cmd : Put.t) (r : Remote) : Remote :=
  {| objects := <[(Put.Bucket cmd, Put.Key cmd) := cmd]> (objects r);
     sent := sent r ++ [cmd] |}.

Definition refused (cmd : Put.t) (r : Remote) : Remote :=
  {| objects := objects r; sent := sent r ++ [cmd] |}.

(** Where an upload ends: at one of the three checks, or at the send. *)
Inductive Stage :=
  | AtEmptyCheck
  | AtSizeCheck
  | AtTypeCheck (e : Error)
  | AtSend.

Definition stage (c : Client.t) (data : BinaryData) (o : Options.t) : Stage :=
  if Z.of_nat (length (toBuffer data)) =? 0 then AtEmptyCheck
  else if Z.of_nat (length (toBuffer data)) >? Client.maxSize c then AtSizeCheck
  else match ensureImageContentType (resolvedContentType o) with
       | Throw e => AtTypeCheck e
       | Ok _ => AtSend
       end.

(** The content-type rule, for an entry point [run] of the client [c] that
    uploads [bytes] and resolves its content type from the options [o]:
    a type that is not an image type ends in a validation error with the
    endpoint as it was; an image type is the [ContentType] of whatever a
    successful run stored, and bytes that pass the two size checks are
    sent under it, stored when the endpoint takes the command. *)
Definition contentTypeGate (c : Client.t) (w : World) (bytes : list byte)
    (o : Options.t) (run : Task Uploaded.t) : Prop :=
  ∀ r : Remote,
    (Js.startsWith "image/" (resolvedContentType o) = false →
       ∃ e, is_validation e = true ∧ run r = (Throw e, r))
    ∧ (Js.startsWith "image/" (resolvedContentType o) = true →
       ∀ res r', run r = (Ok res, r') →
         ∃ cmd, sent r' = sent r ++ [cmd]
                ∧ objects r' !! (Put.Bucket cmd, Put.Key cmd) = Some cmd
                ∧ Put.ContentType cmd = resolvedContentType o)
    ∧ (Js.startsWith "image/" (resolvedContentType o) = true →
       bytes ≠ [] →
       Z.of_nat (length bytes) ≤ Client.maxSize c →
       ∃ cmd, Put.ContentType cmd = resolvedContentType o
              ∧ Put.Body cmd = bytes
              ∧ sent (run r).2 = sent r ++ [cmd]
              ∧ (∀ tag, s3_send w cmd = Stored tag →
                   ∃ res, run r = (Ok res, stored cmd r)
                          ∧ Uploaded.type res = resolvedContentType o
                          ∧ objects (run r).2 !! (Put.Bucket cmd, Put.Key cmd) = Some cmd)
              ∧ (∀ reason, s3_send w cmd = Rejected reason →
                   run r = (Throw (SendFailure reason), refused cmd r))).

(** [n] slashes. *)
Fixpoint slashes (n : nat) : string :=
  match n with
  | O => ""
  | S n' => String "/"%char (slashes n')
  end.

(** A filename is known when it is supplied and not the empty string. *)
Definition nameKnown (originalName : option string) : bool :=
  match originalName with
  | Some name => Js.truthy name
  | None => false
  end.

Fixpoint noBackslash (s : string) : bool :=
  match s with
  | String c r => negb (bool_decide (c = "\"%char)) && noBackslash r
  | EmptyString => true
  end.

(** Text made of base64 digits (either alphabet), padding and ASCII white
    space only: what every reading of base64 asks of its input. *)
Fixpoint base64Text (s : string) : bool :=
  match s with
  | String c r =>
      (bool_decide (is_Some (NodeBuffer.unbase64 c)) || bool_decide (c = "="%char)
       || Ascii.is_space c) && base64Text r
  | EmptyString => true
  end.

(** What the scan of [path.extname] knows before it looks at index [n - 1]. *)
Definition scanInv (path : string) (n : nat) (st : NodePath.ExtScan) : Prop :=
  (NodePath.end_ st = -1 ∨ Z.of_nat n ≤ NodePath.end_ st)
  ∧ (NodePath.startDot st = -1
     ∨ (0 ≤ NodePath.startDot st
        ∧ String.get (Z.to_nat (NodePath.startDot st)) path = Some "."%char
        ∧ NodePath.startDot st < NodePath.end_ st)).

(** ** Sample inputs *)

Module Sample.

Definition config : Config.t :=
  {| Config.accountId := "acct";
     Config.accessKeyId := "AK";
     Config.secretAccessKey := "SK";
     Config.bucket := "pics";
     Config.publicUrl := "https://cdn.example.com/";
     Config.keyPrefix := None;
     Config.maxSizeBytes := None;
     Config.cacheControl := None |}.

(** The client [new Image2UrlClient(config)] builds. *)
Definition client : Client.t :=
  {| Client.client :=
       {| region := "auto";
          endpoint := "https://acct.r2.cloudflarestorage.com";
          credentials := ("AK", "SK") |};
     Client.bucket := "pics";
     Client.publicUrl := "https://cdn.example.com";
     Client.prefix := "images";
     Client.maxSize := 2097152;
     Client.cacheControl := "public, max-age=31536000" |}.

(** The same configuration with a ceiling of [-1] bytes. *)
Definition negativeConfig : Config.t :=
  {| Config.accountId := "acct";
     Config.accessKeyId := "AK";
     Config.secretAccessKey := "SK";
     Config.bucket := "pics";
     Config.publicUrl := "https://cdn.example.com/";
     Config.keyPrefix := None;
     Config.maxSizeBytes := Some (-1);
     Config.cacheControl := None |}.

Definition negativeClient : Client.t :=
  {| Client.client := Client.client client;
     Client.bucket := "pics";
     Client.publicUrl := "https://cdn.example.com";
     Client.prefix := "images";
     Client.maxSize := -1;
     Client.cacheControl := "public, max-age=31536000" |}.

Definition world : World :=
  {| Date_now := 1700000000000;
     randomUUID := "123e4567-e89b-12d3-a456-426614174000";
     toISOString := "2023-11-14T22:13:20.000Z";
     fs_stat := λ p, if bool_decide (p = "/tmp/empty.png") then inr true
                     else inl ("ENOENT: no such file or directory, stat '" +:+ p +:+ "'");
     fs_readFile := λ p, if bool_decide (p = "/tmp/empty.png") then inr []
                         else inl ("ENOENT: no such file or directory, open '" +:+ p +:+ "'");
     s3_send := λ _, Stored (Some "etag-1") |}.

Definition gif : BinaryData := OfBuffer ["G"; "I"; "F"]%byte.

Definition generatedKey (ext : string) : string :=
  "images/1700000000000-123e4567-e89b-12d3-a456-426614174000." +:+ ext.

Definition named (name : string) : Options.t :=
  {| Options.key := None; Options.originalName := Some name;
     Options.contentType := None; Options.metadata := None |}.

Definition typed (ct : string) : Options.t :=
  {| Options.key := None; Options.originalName := None;
     Options.contentType := Some ct; Options.metadata := None |}.

Definition keyed (k : string) : Options.t :=
  {| Options.key := Some k; Options.originalName := None;
     Options.contentType := None; Options.metadata := None |}.

Definition tagged (m : gmap string string) : Options.t :=
  {| Options.key := None; Options.originalName := None;
     Options.contentType := None; Options.metadata := Some m |}.

End Sample.

(** ** Configuration from the environment *)

(** An environment ([process.env], or the object handed in) is a finite
    map from names to strings.  A read of a name that is not set also finds
    the members of [Object.prototype]; the statements about [firstEnv] and
    [readString] leave those names out. *)
Definition inheritedName (name : string) : bool :=
  bool_decide (name ∈ "__proto__" :: objectPrototypeFunctions).

Fixpoint firstEnv (env : gmap string string) (keys : list string) : option string :=
  match keys with
  | key :: rest =>
      match env !! key with
      | Some value => Some value
      | None => firstEnv env rest
      end
  | [] => None
  end.

(** [requireValue] at an argument that may be [undefined]. *)
Definition requireDefined (value : option string) (field : string) : Result string :=
  match value with
  | Some v => requireValue v field
  | None => Throw (MissingConfig field)
  end.

Definition ENV_ACCOUNT_ID : list string :=
  ["R2_ACCOUNT_ID"; "IMGTOURL_ACCOUNT_ID"; "IMAGETOURL_ACCOUNT_ID"; "IMAGE2URL_ACCOUNT_ID"].
Definition ENV_ACCESS_KEY_ID : list string :=
  ["R2_ACCESS_KEY_ID"; "IMGTOURL_ACCESS_KEY_ID"; "IMAGETOURL_ACCESS_KEY_ID";
   "IMAGE2URL_ACCESS_KEY_ID"].
Definition ENV_SECRET_ACCESS_KEY : list string :=
  ["R2_SECRET_ACCESS_KEY"; "IMGTOURL_SECRET_ACCESS_KEY"; "IMAGETOURL_SECRET_ACCESS_KEY";
   "IMAGE2URL_SECRET_ACCESS_KEY"].
Definition ENV_BUCKET : list string :=
  ["R2_BUCKET_NAME"; "IMGTOURL_BUCKET"; "IMAGETOURL_BUCKET"; "IMAGE2URL_BUCKET"].
Definition ENV_PUBLIC_URL : list string :=
  ["R2_PUBLIC_URL"; "IMGTOURL_PUBLIC_URL"; "IMAGETOURL_PUBLIC_URL"; "IMAGE2URL_PUBLIC_URL"].
Definition ENV_PREFIX : list string :=
  ["IMGTOURL_PREFIX"; "IMAGETOURL_PREFIX"; "IMAGE2URL_PREFIX"].
Definition ENV_MAX_SIZE : list string :=
  ["IMGTOURL_MAX_SIZE"; "IMAGETOURL_MAX_SIZE"; "IMAGE2URL_MAX_SIZE"].

Section FromText.

(** [Number(text)] when it is finite (and integral, as every [number] of
    the model), [None] when it is [NaN] or infinite. *)
Variable finiteNumber : string → option Z.

Definition parseOptionalNumber (value : option string) : option Z :=
  match value with
  | Some v => finiteNumber v
  | None => None
  end.

(** [createClientFromEnv(env)]: the properties of the object literal are
    evaluated in the order they are written, then the constructor runs. *)
Definition createClientFromEnv (env : gmap string string) : Result Client.t :=
  match requireDefined (firstEnv env ENV_ACCOUNT_ID) "R2_ACCOUNT_ID" with
  | Throw e => Throw e
  | Ok accountId =>
  match requireDefined (firstEnv env ENV_ACCESS_KEY_ID) "R2_ACCESS_KEY_ID" with
  | Throw e => Throw e
  | Ok accessKeyId =>
  match requireDefined (firstEnv env ENV_SECRET_ACCESS_KEY) "R2_SECRET_ACCESS_KEY" with
  | Throw e => Throw e
  | Ok secretAccessKey =>
  match requireDefined (firstEnv env ENV_BUCKET) "R2_BUCKET_NAME" with
  | Throw e => Throw e
  | Ok bucket =>
  match requireDefined (firstEnv env ENV_PUBLIC_URL) "R2_PUBLIC_URL" with
  | Throw e => Throw e
  | Ok publicUrl =>
      newClient
        {| Config.accountId := accountId;
           Config.accessKeyId := accessKeyId;
           Config.secretAccessKey := secretAccessKey;
           Config.bucket := bucket;
           Config.publicUrl := publicUrl;
           Config.keyPrefix := firstEnv env ENV_PREFIX;
           Config.maxSizeBytes := parseOptionalNumber (firstEnv env ENV_MAX_SIZE);
           Config.cacheControl := None |}
  end end end end end.

End FromText.

(** ** The command line *)

Module Cli.

(** [type ArgValue = string | boolean] *)
Inductive ArgValue :=
  | Str (s : string)
  | Flag (b : bool).

Definition truthyArg (v : option ArgValue) : bool :=
  match v with
  | Some (Str s) => Js.truthy s
  | Some (Flag b) => b
  | None => false
  end.

(** [args[key] = value] on an object literal: an assignment to
    [__proto__] of a string or a boolean leaves the object as it is. *)
Definition setArg (key : string) (value : ArgValue) (args : gmap string ArgValue)
  : gmap string ArgValue :=
  if bool_decide (key = "__proto__") then args else <[key := value]> args.

(** [s.slice(n)] *)
Fixpoint sliceFrom (n : nat) (s : string) : string :=
  match n, s with
  | S n', String _ r => sliceFrom n' r
  | _, _ => s
  end.

(** The loop of [parseArgs], from the argument at hand to the last. *)
Fixpoint parseLoop (argv : list string) (args : gmap string ArgValue)
    (file : option string) : gmap string ArgValue * option string :=
  match argv with
  | [] => (args, file)
  | current :: rest =>
      if bool_decide (current = "-h") || bool_decide (current = "--help") then
        parseLoop rest (<["help" := Flag true]> args) file
      else if Js.startsWith "--" current then
        match rest with
        | next :: rest' =>
            if Js.truthy next && negb (Js.startsWith "-" next)
            then parseLoop rest' (setArg (sliceFrom 2 current) (Str next) args) file
            else parseLoop rest (setArg (sliceFrom 2 current) (Flag true) args) file
        | [] => parseLoop rest (setArg (sliceFrom 2 current) (Flag true) args) file
        end
      else if Js.startsWith "-" current then
        match rest with
        | next :: rest' =>
            if Js.truthy next && negb (Js.startsWith "-" next)
            then parseLoop rest' (setArg (sliceFrom 1 current) (Str next) args) file
            else parseLoop rest (setArg (sliceFrom 1 current) (Flag true) args) file
        | [] => parseLoop rest (setArg (sliceFrom 1 current) (Flag true) args) file
        end
      else
        parseLoop rest args
          match file with
          | Some f => if Js.truthy f then file else Some current
          | None => Some current
          end
  end.

Definition parseArgs (argv : list string) : gmap string ArgValue * option string :=
  parseLoop argv ∅ None.

Fixpoint firstString (args : gmap string ArgValue) (keys : list string) : option string :=
  match keys with
  | key :: rest =>
      match args !! key with
      | Some (Str s) => Some s
      | _ => firstString args rest
      end
  | [] => None
  end.

Fixpoint firstTruthy (env : gmap string string) (envKeys : list string) : option string :=
  match envKeys with
  | envKey :: rest =>
      match env !! envKey with
      | Some value => if Js.truthy value then Some value else firstTruthy env rest
      | None => firstTruthy env rest
      end
  | [] => None
  end.

(** [readString(args, keys, envKeys)], reading [process.env] as [env]. *)
Definition readString (env : gmap string string) (args : gmap string ArgValue)
    (keys envKeys : list string) : option string :=
  match firstString args keys with
  | Some s => Some s
  | None => firstTruthy env envKeys
  end.

(** [envKeys.join(' / ')] *)
Fixpoint join (sep : string) (l : list string) : string :=
  match l with
  | [] => ""
  | [x] => x
  | x :: rest => x +:+ sep +:+ join sep rest
  end.

(** [requireArg]; [inl] is the message of the error it throws. *)
Definition requireArg (env : gmap string string) (args : gmap string ArgValue)
    (keys envKeys : list string) (label : string) : string + string :=
  match readString env args keys envKeys with
  | Some value =>
      if Js.truthy value then inr value
      else inl ("Missing " +:+ label +:+ ". Provide --" +:+ hd "undefined" keys
                +:+ " or set " +:+ join " / " envKeys +:+ ".")
  | None =>
      inl ("Missing " +:+ label +:+ ". Provide --" +:+ hd "undefined" keys
           +:+ " or set " +:+ join " / " envKeys +:+ ".")
  end.

Section Main.

Variable finiteNumber : string → option Z.   (* [Number(text)], when finite *)
Variable resolve : string → string.          (* [path.resolve(file)] *)

Definition readNumber (env : gmap string string) (args : gmap string ArgValue)
    (keys envKeys : list string) : option Z :=
  match readString env args keys [] with
  | Some fromArg =>
      if Js.truthy fromArg then finiteNumber fromArg
      else match readString env args [] envKeys with
           | Some fromEnv => if Js.truthy fromEnv then finiteNumber fromEnv else None
           | None => None
           end
  | None =>
      match readString env args [] envKeys with
      | Some fromEnv => if Js.truthy fromEnv then finiteNumber fromEnv else None
      | None => None
      end
  end.

(** The configuration object [main] builds; [inl] is the message of the
    first [requireArg] that throws. *)
Definition cliConfig (env : gmap string string) (args : gmap string ArgValue)
  : string + Config.t :=
  match requireArg env args ["account"; "a"] ENV_ACCOUNT_ID "account id" with
  | inl m => inl m
  | inr accountId =>
  match requireArg env args ["access-key"] ENV_ACCESS_KEY_ID "access key" with
  | inl m => inl m
  | inr accessKeyId =>
  match requireArg env args ["secret-key"] ENV_SECRET_ACCESS_KEY "secret key" with
  | inl m => inl m
  | inr secretAccessKey =>
  match requireArg env args ["bucket"; "b"] ENV_BUCKET "bucket name" with
  | inl m => inl m
  | inr bucket =>
  match requireArg env args ["public-url"] ENV_PUBLIC_URL "public URL" with
  | inl m => inl m
  | inr publicUrl =>
      inr {| Config.accountId := accountId;
             Config.accessKeyId := accessKeyId;
             Config.secretAccessKey := secretAccessKey;
             Config.bucket := bucket;
             Config.publicUrl := publicUrl;
             Config.keyPrefix := readString env args ["prefix"] ENV_PREFIX;
             Config.maxSizeBytes := readNumber env args ["max-size"] ENV_MAX_SIZE;
             Config.cacheControl := None |}
  end end end end end.

Definition cliOptions (env : gmap string string) (args : gmap string ArgValue)
  : Options.t :=
  {| Options.key := readString env args ["key"] [];
     Options.originalName := readString env args ["name"; "n"] [];
     Options.contentType := readString env args ["content-type"] [];
     Options.metadata := None |}.

(** How a run of [main] ends. *)
Inductive Outcome :=
  | Help                         (* printHelp(), exit code 0 *)
  | MissingFile                  (* printHelp('Missing file path to upload.'), exit code 1 *)
  | Failed (text : string)       (* console.error(text), exit code 1 *)
  | Printed (res : Uploaded.t).  (* console.log(JSON.stringify(result, null, 2)) *)

(** [main()], on [process.argv.slice(2)]. *)
Definition main (env : gmap string string) (w : World) (argv : list string)
    (r : Remote) : Outcome * Remote :=
  let '(args, file) := parseArgs argv in
  if truthyArg (args !! "help") || truthyArg (args !! "h") then (Help, r)
  else
    match file with
    | None => (MissingFile, r)
    | Some f =>
        if negb (Js.truthy f) then (MissingFile, r)
        else
          match cliConfig env args with
          | inl m => (Failed ("imagetourl: " +:+ m), r)
          | inr config =>
              match newClient config with
              | Throw e => (Failed ("imagetourl: " +:+ message e), r)
              | Ok client =>
                  match uploadFile client w (resolve f) (cliOptions env args) r with
                  | (Ok res, r') => (Printed res, r')
                  | (Throw e, r') => (Failed ("imagetourl: " +:+ message e), r')
                  end
              end
          end
    end.

End Main.

End Cli.

(** ** Further vocabulary *)

(** The first and the last code unit of a string. *)
Definition firstChar (s : string) : option ascii :=
  match s with
  | String c _ => Some c
  | EmptyString => None
  end.

Fixpoint lastChar (s : string) : option ascii :=
  match s with
  | String c EmptyString => Some c
  | String _ r => lastChar r
  | EmptyString => None
  end.

Fixpoint hasChar (c : ascii) (s : string) : bool :=
  match s with
  | String d r => bool_decide (c = d) || hasChar c r
  | EmptyString => false
  end.

(** The required fields of a configuration, in the order the constructor
    checks them. *)
Definition requiredFields (config : Config.t) : list (string * string) :=
  [ ("bucket", Config.bucket config);
    ("publicUrl", Config.publicUrl config);
    ("accountId", Config.accountId config);
    ("accessKeyId", Config.accessKeyId config);
    ("secretAccessKey", Config.secretAccessKey config) ].

Fixpoint firstMissing (fields : list (string * string)) : option string :=
  match fields with
  | (name, value) :: rest => if Js.truthy value then firstMissing rest else Some name
  | [] => None
  end.

(** What the scan of [path.extname] also knows before it looks at index
    [n - 1]: no dot and no slash between the dot it cut at (or the index it
    is at) and the end of the extension; [scanDone] is what is left of it
    once the loop is over. *)
Definition scanDone (path : string) (st : NodePath.ExtScan) : Prop :=
  NodePath.startDot st ≠ -1 →
  ∀ j : nat,
    NodePath.startDot st < Z.of_nat j →
    Z.of_nat j < NodePath.end_ st →
    ∃ c, String.get j path = Some c ∧ c ≠ "."%char ∧ c ≠ "/"%char.

Definition scanClean (path : string) (n : nat) (st : NodePath.ExtScan) : Prop :=
  ∀ j : nat,
    (if NodePath.startDot st =? -1 then Z.of_nat n ≤ Z.of_nat j
     else NodePath.startDot st < Z.of_nat j) →
    Z.of_nat j < NodePath.end_ st →
    ∃ c, String.get j path = Some c ∧ c ≠ "."%char ∧ c ≠ "/"%char.

(** What [parseArgs] keeps true of the arguments parsed so far, [argv]
    being the whole command line: a stored string is an argument that is
    not empty and does not start with a dash, a stored flag is [true], and
    the file is an argument that does not start with a dash. *)
Definition argsGood (argv : list string) (args : gmap string Cli.ArgValue)
    (file : option string) : Prop :=
  (∀ k v, args !! k = Some (Cli.Str v) →
     v ≠ "" ∧ Js.startsWith "-" v = false ∧ v ∈ argv)
  ∧ (∀ k b, args !! k = Some (Cli.Flag b) → b = true)
  ∧ (∀ f, file = Some f → f ∈ argv ∧ Js.startsWith "-" f = false).

(** The five variables [createClientFromEnv] reports as missing. *)
Definition requiredVariables : list string :=
  ["R2_ACCOUNT_ID"; "R2_ACCESS_KEY_ID"; "R2_SECRET_ACCESS_KEY"; "R2_BUCKET_NAME";
   "R2_PUBLIC_URL"].

(** * Properties *)

(** ** The model on small inputs *)

Example extname_png : NodePath.extname "photo.PNG" = ".PNG".
Proof. reflexivity. Qed.
Example extname_dotfile : NodePath.extname ".bashrc" = "".
Proof. reflexivity. Qed.
Example extname_dotdot : NodePath.extname "dir/.." = "".
Proof. reflexivity. Qed.
Example extname_trailing : NodePath.extname "a/b.tar.gz//" = ".gz".
Proof. reflexivity. Qed.
Example extname_enddot : NodePath.extname "photo." = ".".
Proof. reflexivity. Qed.
Example basename_ex : NodePath.basename "/tmp/x/cat.png" = "cat.png".
Proof. reflexivity. Qed.
Example trim_ex : Js.trim "  a b  " = "a b".
Proof. reflexivity. Qed.
Example dropTrailing_ex : Js.dropTrailingSlashes "https://x.dev/a//" = "https://x.dev/a".
Proof. reflexivity. Qed.
Example fromBase64_ABC : NodeBuffer.fromBase64 "QUJD" = ["A"; "B"; "C"]%byte.
Proof. reflexivity. Qed.
Example fromBase64_pad : NodeBuffer.fromBase64 "QUI=" = ["A"; "B"]%byte.
Proof. reflexivity. Qed.
Example fromBase64_junk : NodeBuffer.fromBase64 "!!!!" = [].
Proof. reflexivity. Qed.
Example limit_default : toFixed1_MiB 2097152 = "2.0".
Proof. vm_compute. reflexivity. Qed.
Example limit_small : toFixed1_MiB 500000 = "0.5".
Proof. vm_compute. reflexivity. Qed.
Example sample_client : newClient Sample.config = Ok Sample.client.
Proof. vm_compute. reflexivity. Qed.
Example sample_negative_client : newClient Sample.negativeConfig = Ok Sample.negativeClient.
Proof. vm_compute. reflexivity. Qed.
Example sample_upload :
  (uploadBuffer Sample.client Sample.world Sample.gif (Sample.named "cat.GIF") emptyRemote).1
  = Ok {| Uploaded.url := "https://cdn.example.com/" +:+ Sample.generatedKey "gif";
          Uploaded.key := Sample.generatedKey "gif";
          Uploaded.bucket := "pics";
          Uploaded.size := 3;
          Uploaded.type := "image/gif";
          Uploaded.etag := Some "etag-1" |}.
Proof. vm_compute. reflexivity. Qed.
Example sample_second_parameter :
  dContentType (decodeBase64 "data:image/png;charset=utf-8;base64,QUJD") = None.
Proof. vm_compute. reflexivity. Qed.
Example sample_data_uri :
  decodeBase64 "  data:image/png;base64,QUJD  " =
  {| buffer := ["A"; "B"; "C"]%byte;
     dContentType := Some "image/png";
     dOriginalName := Some "upload.png" |}.
Proof. vm_compute. reflexivity. Qed.
Example sample_backslash_key : normalizeKey "/a\b" = "a/b".
Proof. reflexivity. Qed.

(** No member of [Object.prototype] can be mistaken for a table key by
    [guessContentType] or [guessExtension]. *)
Example prototype_names_apart :
  Forall (λ name, name ≠ "" ∧ Js.startsWith "." name = false
                  ∧ Js.startsWith "image/" name = false)
         ("__proto__" :: objectPrototypeFunctions).
Proof. repeat constructor; discriminate. Qed.

(** ** Lemmas on the string primitives *)

Lemma truthy_true (s : string) : Js.truthy s = true ↔ s ≠ "".
Proof.
  unfold Js.truthy. destruct (bool_decide_reflect (s = "")); simpl; split; congruence.
Qed.

Lemma truthy_false (s : string) : Js.truthy s = false ↔ s = "".
Proof.
  unfold Js.truthy. destruct (bool_decide_reflect (s = "")); simpl; split; congruence.
Qed.

Lemma dropTrailingSlashes_idem (s : string) :
  Js.dropTrailingSlashes (Js.dropTrailingSlashes s) = Js.dropTrailingSlashes s.
Proof.
  induction s as [|c s IH]; simpl; [reflexivity|].
  destruct (Js.dropTrailingSlashes s) as [|d t] eqn:E.
  - destruct (Js.is_slash c) eqn:Ec; simpl; [reflexivity|]. now rewrite Ec.
  - change (Js.dropTrailingSlashes (String c (String d t))) with
      (match Js.dropTrailingSlashes (String d t) with
       | EmptyString => if Js.is_slash c then EmptyString else String c EmptyString
       | r' => String c r'
       end).
    now rewrite IH.
Qed.

Lemma toLowerCase_empty (s : string) : Js.toLowerCase s = "" ↔ s = "".
Proof. destruct s; simpl; split; congruence. Qed.

Lemma startsWith_image_truthy (s : string) :
  Js.startsWith "image/" s = true → Js.truthy s = true.
Proof. destruct s; [discriminate | reflexivity]. Qed.

Lemma substring_at (s : string) : ∀ (n m : nat) (c : ascii),
  String.get n s = Some c →
  String.substring n (S m) s = String c (String.substring (S n) m s).
Proof.
  induction s as [|a s IH]; intros n m c H; [destruct n; discriminate|].
  destruct n as [|n]; simpl in *.
  - inversion H; subst. destruct s; reflexivity.
  - now apply IH.
Qed.

Lemma backslashesToSlashes_id (s : string) :
  noBackslash s = true → Js.backslashesToSlashes s = s.
Proof.
  induction s as [|c s IH]; simpl; [reflexivity|].
  intros [Hc Hs]%andb_prop. rewrite IH by assumption.
  destruct (bool_decide (c = "\"%char)); [discriminate | reflexivity].
Qed.

(** A key without a leading slash and without a backslash is left as it is. *)
Lemma normalizeKey_verbatim (k : string) :
  Js.startsWith "/" k = false → noBackslash k = true → normalizeKey k = k.
Proof.
  intros Hs Hb. unfold normalizeKey.
  assert (Js.dropLeadingSlashes k = k) as ->.
  { destruct k as [|c k]; [reflexivity|]. simpl.
    unfold Js.is_slash. destruct (bool_decide_reflect (c = "/"%char)) as [->|]; [|reflexivity].
    destruct k; discriminate. }
  now apply backslashesToSlashes_id.
Qed.

Lemma trim_nonempty (k : string) :
  Js.trim k ≠ "" → keyGiven (Some k) = Some k.
Proof.
  intros H. unfold keyGiven.
  assert (Js.truthy k = true) as ->.
  { apply truthy_true. intros ->. now apply H. }
  destruct (Js.trim k); [congruence | reflexivity].
Qed.

(** ** The shape of [path.extname] *)

Section Extname.

Variable path : string.

Lemma extStep_inv (i : nat) (c : ascii) (st : NodePath.ExtScan) :
  String.get i path = Some c →
  scanInv path (S i) st →
  match NodePath.extStep c (Z.of_nat i) st with
  | inl st' => scanInv path 0 st'
  | inr st' => scanInv path i st'
  end.
Proof.
  intros Hget [Hend Hdot]. unfold NodePath.extStep, scanInv.
  destruct (Js.is_slash c).
  - destruct (negb (NodePath.matchedSlash st)); split; simpl; try assumption; lia.
  - destruct (bool_decide_reflect (c = "."%char)) as [->|Hc].
    + destruct (Z.eqb_spec (NodePath.end_ st) (-1)) as [He|He]; simpl;
        destruct (Z.eqb_spec (NodePath.startDot st) (-1)) as [Hs|Hs]; simpl.
      * split; simpl; [lia|]. right. rewrite Nat2Z.id. repeat split; [lia|assumption|lia].
      * destruct (negb (NodePath.preDotState st =? 1)); split; simpl; lia.
      * split; simpl; [lia|]. right. rewrite Nat2Z.id. repeat split; [lia|assumption|lia].
      * destruct (negb (NodePath.preDotState st =? 1)); split; simpl;
          try lia; destruct Hdot as [|(?&?&?)]; try lia; right; repeat split; assumption.
    + destruct (Z.eqb_spec (NodePath.end_ st) (-1)) as [He|He]; simpl;
        destruct (Z.eqb_spec (NodePath.startDot st) (-1)) as [Hs|Hs]; simpl;
        split; simpl; try lia;
        destruct Hdot as [|(?&?&?)]; try lia; right; repeat split; solve [assumption | lia].
Qed.

Lemma extLoop_inv (n : nat) : ∀ st,
  scanInv path n st → scanInv path 0 (NodePath.extLoop path n st).
Proof.
  induction n as [|i IH]; intros st H; simpl.
  - exact H.
  - destruct (String.get i path) as [c|] eqn:Hget.
    + pose proof (extStep_inv i c st Hget H) as Hstep.
      destruct (NodePath.extStep c (Z.of_nat i) st); [assumption | now apply IH].
    + destruct H as [He Hd]. split; [lia | assumption].
Qed.

(** [path.extname(p)] is empty or starts with the dot it was cut at. *)
Lemma extname_shape :
  NodePath.extname path = "" ∨ ∃ e, NodePath.extname path = String "."%char e.
Proof.
  unfold NodePath.extname.
  assert (scanInv path 0 (NodePath.extLoop path (String.length path) NodePath.extInit))
    as [_ Hd].
  { apply extLoop_inv. split; simpl; [left|left]; reflexivity. }
  set (st := NodePath.extLoop path (String.length path) NodePath.extInit) in *.
  destruct (Z.eqb_spec (NodePath.startDot st) (-1)) as [Hs|Hs]; simpl; [now left|].
  match goal with |- (if ?b then _ else _) = _ ∨ _ => destruct b end; [now left|].
  right. destruct Hd as [|(H0 & Hget & Hlt)]; [lia|].
  unfold Js.slice.
  replace (Z.to_nat (NodePath.end_ st - NodePath.startDot st))
    with (S (Z.to_nat (NodePath.end_ st - NodePath.startDot st - 1))) by lia.
  erewrite substring_at by exact Hget. eauto.
Qed.

End Extname.

(** ** Running [uploadBuffer] *)

Lemma ensure_Ok (s t : string) :
  ensureImageContentType s = Ok t → t = s ∧ Js.startsWith "image/" s = true.
Proof.
  unfold ensureImageContentType.
  destruct (Js.truthy s); simpl; [|discriminate].
  destruct (Js.startsWith "image/" s); simpl; [|discriminate].
  intros [= <-]. auto.
Qed.

Lemma ensure_image (s : string) :
  Js.startsWith "image/" s = true → ensureImageContentType s = Ok s.
Proof.
  intros H. unfold ensureImageContentType.
  now rewrite (startsWith_image_truthy s H), H.
Qed.

Lemma ensure_not_image (s : string) :
  Js.startsWith "image/" s = false →
  ∃ e, ensureImageContentType s = Throw e ∧ is_validation e = true.
Proof.
  intros H. unfold ensureImageContentType. rewrite H.
  destruct (Js.truthy s); simpl; eauto.
Qed.

Lemma ensure_Throw (s : string) (e : Error) :
  ensureImageContentType s = Throw e →
  (e = NoContentType ∧ s = "") ∨ (e = NotImage s ∧ s ≠ "").
Proof.
  unfold ensureImageContentType.
  destruct (Js.truthy s) eqn:Ht; simpl.
  - destruct (Js.startsWith "image/" s); simpl; [discriminate|].
    intros [= <-]. right. split; [reflexivity|]. now apply truthy_true.
  - intros [= <-]. left. split; [reflexivity|]. now apply truthy_false.
Qed.

Section Run.

Context (c : Client.t) (w : World) (data : BinaryData) (o : Options.t).

Lemma uploadBuffer_run (r : Remote) :
  uploadBuffer c w data o r =
  match stage c data o with
  | AtEmptyCheck => (Throw EmptyFile, r)
  | AtSizeCheck => (Throw (FileTooLarge (Client.maxSize c)), r)
  | AtTypeCheck e => (Throw e, r)
  | AtSend =>
      match s3_send w (uploadCommand c w data o) with
      | Stored tag => (Ok (uploaded c w data o tag), stored (uploadCommand c w data o) r)
      | Rejected reason =>
          (Throw (SendFailure reason), refused (uploadCommand c w data o) r)
      end
  end.
Proof.
  unfold uploadBuffer, stage.
  destruct (Z.of_nat (length (toBuffer data)) =? 0); [reflexivity|].
  destruct (Z.of_nat (length (toBuffer data)) >? Client.maxSize c); [reflexivity|].
  unfold bind, lift.
  destruct (ensureImageContentType (resolvedContentType o)) as [ct|e] eqn:E;
    [|reflexivity].
  apply ensure_Ok in E as [-> _].
  unfold send, uploaded, stored, refused, uploadCommand, ret; simpl.
  destruct (s3_send w _); reflexivity.
Qed.

Lemma stage_empty : length (toBuffer data) = 0%nat → stage c data o = AtEmptyCheck.
Proof. intros H. unfold stage. now rewrite H. Qed.

Lemma stage_size :
  length (toBuffer data) ≠ 0%nat →
  Z.of_nat (length (toBuffer data)) > Client.maxSize c →
  stage c data o = AtSizeCheck.
Proof.
  intros Hne Hgt. unfold stage.
  destruct (Z.eqb_spec (Z.of_nat (length (toBuffer data))) 0); [lia|].
  destruct (Z.gtb_spec (Z.of_nat (length (toBuffer data))) (Client.maxSize c));
    [reflexivity | lia].
Qed.

Lemma stage_type :
  length (toBuffer data) ≠ 0%nat →
  Z.of_nat (length (toBuffer data)) ≤ Client.maxSize c →
  stage c data o =
  match ensureImageContentType (resolvedContentType o) with
  | Throw e => AtTypeCheck e
  | Ok _ => AtSend
  end.
Proof.
  intros Hne Hle. unfold stage.
  destruct (Z.eqb_spec (Z.of_nat (length (toBuffer data))) 0); [lia|].
  destruct (Z.gtb_spec (Z.of_nat (length (toBuffer data))) (Client.maxSize c));
    [lia | reflexivity].
Qed.

Lemma stage_send :
  length (toBuffer data) ≠ 0%nat →
  Z.of_nat (length (toBuffer data)) ≤ Client.maxSize c →
  Js.startsWith "image/" (resolvedContentType o) = true →
  stage c data o = AtSend.
Proof.
  intros Hne Hle Himg. rewrite stage_type by assumption. now rewrite ensure_image.
Qed.

(** The type check is reached only by a buffer that passed both size checks. *)
Lemma stage_type_inv (e : Error) :
  stage c data o = AtTypeCheck e →
  length (toBuffer data) ≠ 0%nat
  ∧ Z.of_nat (length (toBuffer data)) ≤ Client.maxSize c
  ∧ ensureImageContentType (resolvedContentType o) = Throw e.
Proof.
  unfold stage.
  destruct (Z.eqb_spec (Z.of_nat (length (toBuffer data))) 0); [discriminate|].
  destruct (Z.gtb_spec (Z.of_nat (length (toBuffer data))) (Client.maxSize c));
    [discriminate|].
  destruct (ensureImageContentType (resolvedContentType o)); [discriminate|].
  intros [= ->]. repeat split; [lia | lia].
Qed.

(** A successful upload went through every stage. *)
Lemma uploadBuffer_Ok (r r' : Remote) (res : Uploaded.t) :
  uploadBuffer c w data o r = (Ok res, r') →
  ∃ tag, s3_send w (uploadCommand c w data o) = Stored tag
         ∧ res = uploaded c w data o tag
         ∧ r' = stored (uploadCommand c w data o) r
         ∧ Js.startsWith "image/" (resolvedContentType o) = true.
Proof.
  rewrite uploadBuffer_run. unfold stage.
  destruct (Z.of_nat (length (toBuffer data)) =? 0); [discriminate|].
  destruct (Z.of_nat (length (toBuffer data)) >? Client.maxSize c); [discriminate|].
  destruct (ensureImageContentType (resolvedContentType o)) as [ct|e] eqn:E;
    [|discriminate].
  apply ensure_Ok in E as [_ Himg].
  destruct (s3_send w (uploadCommand c w data o)) as [tag|reason]; [|discriminate].
  intros [= <- <-]. eauto.
Qed.

(** An upload that throws a validation error never reached [send]. *)
Lemma uploadBuffer_validation (r r' : Remote) (e : Error) :
  uploadBuffer c w data o r = (Throw e, r') →
  is_validation e = true → r' = r.
Proof.
  rewrite uploadBuffer_run.
  destruct (stage c data o); try (intros [= <- <-]; reflexivity).
  destruct (s3_send w (uploadCommand c w data o)); [discriminate|].
  intros [= <- <-]. discriminate.
Qed.

(** Every upload sends at most one command. *)
Lemma uploadBuffer_sent (r : Remote) :
  sent (uploadBuffer c w data o r).2 = sent r
  ∨ sent (uploadBuffer c w data o r).2 = sent r ++ [uploadCommand c w data o].
Proof.
  rewrite uploadBuffer_run.
  destruct (stage c data o); simpl; auto.
  destruct (s3_send w (uploadCommand c w data o)); simpl; auto.
Qed.

Lemma uploadBuffer_gate :
  contentTypeGate c w (toBuffer data) o (uploadBuffer c w data o).
Proof.
  intros r. split; [|split].
  - intros Hno. rewrite uploadBuffer_run.
    destruct (stage c data o) as [| |e|] eqn:Hst; try (eexists; split; [|reflexivity]; reflexivity).
    + apply stage_type_inv in Hst as (_ & _ & He).
      destruct (ensure_not_image _ Hno) as (e' & He' & Hv).
      exists e. split; [congruence | reflexivity].
    + exfalso. unfold stage in Hst.
      destruct (Z.of_nat (length (toBuffer data)) =? 0); [discriminate|].
      destruct (Z.of_nat (length (toBuffer data)) >? Client.maxSize c); [discriminate|].
      destruct (ensure_not_image _ Hno) as (e' & He' & _). now rewrite He' in Hst.
  - intros Himg res r' Hrun.
    apply uploadBuffer_Ok in Hrun as (tag & Hsend & -> & -> & _).
    exists (uploadCommand c w data o). repeat split.
    simpl. apply lookup_insert_eq.
  - intros Himg Hne Hle.
    assert (length (toBuffer data) ≠ 0%nat) as Hlen
      by (destruct (toBuffer data); [congruence | discriminate]).
    exists (uploadCommand c w data o).
    split; [reflexivity|]. split; [reflexivity|].
    rewrite uploadBuffer_run, (stage_send Hlen Hle Himg).
    split; [destruct (s3_send w (uploadCommand c w data o)); reflexivity|].
    split.
    + intros tag ->. eexists. split; [reflexivity|]. split; [reflexivity|].
      simpl. apply lookup_insert_eq.
    + intros reason ->. reflexivity.
Qed.

End Run.

Lemma uploadFile_run (c : Client.t) (w : World) (filePath : string) (o : Options.t)
    (bytes : list byte) :
  fs_stat w filePath = inr true →
  fs_readFile w filePath = inr bytes →
  uploadFile c w filePath o = uploadBuffer c w (OfBuffer bytes) (fileOptions filePath o).
Proof. intros Hs Hr. unfold uploadFile. now rewrite Hs, Hr. Qed.

Lemma uploadBase64_run (c : Client.t) (w : World) (base64 : string) (o : Options.t) :
  uploadBase64 c w base64 o =
  uploadBuffer c w (OfBuffer (buffer (decodeBase64 base64))) (base64Options base64 o).
Proof. reflexivity. Qed.

(** What the constructor stores. *)
Lemma newClient_fields (config : Config.t) (c : Client.t) :
  newClient config = Ok c →
  Client.bucket c = Config.bucket config
  ∧ Client.publicUrl c = Js.dropTrailingSlashes (Config.publicUrl config)
  ∧ Client.prefix c = trimSlashes (default "images" (Config.keyPrefix config))
  ∧ Client.maxSize c = default DEFAULT_MAX_SIZE (Config.maxSizeBytes config)
  ∧ Client.cacheControl c = default DEFAULT_CACHE_CONTROL (Config.cacheControl config).
Proof.
  unfold newClient, requireValue.
  repeat match goal with
         | |- context [Js.truthy ?s] => destruct (Js.truthy s); [|discriminate]
         end.
  intros [= <-]. simpl. repeat split.
Qed.

(** ** Content type *)

(** C1. The content type an upload is judged by is the caller's
    [contentType] or else the MIME type the table gives for the extension of
    the original filename.  When it does not begin with [image/], the upload
    throws a validation error and the endpoint is left as it was.  When it
    does, [ensureImageContentType] returns it, a buffer that is not empty
    and within the ceiling is sent under exactly that [ContentType] and
    stored under it when the endpoint takes the command, and whatever a
    successful upload stored carries it.  The same holds for [uploadFile]
    (once the file is read) and for [uploadBase64], which end in
    [uploadBuffer]. *)
Theorem content_type_gate (c : Client.t) (w : World) (data : BinaryData)
    (o : Options.t) (filePath base64 : string) (bytes : list byte) :
  (∀ ct, Options.contentType o = Some ct → resolvedContentType o = ct)
  ∧ (∀ name mime,
       Options.contentType o = None →
       Options.originalName o = Some name →
       name ≠ "" →
       MIME_BY_EXT !! Js.toLowerCase (NodePath.extname name) = Some mime →
       resolvedContentType o = mime)
  ∧ (Js.startsWith "image/" (resolvedContentType o) = true →
       ensureImageContentType (resolvedContentType o) = Ok (resolvedContentType o))
  ∧ contentTypeGate c w (toBuffer data) o (uploadBuffer c w data o)
  ∧ (fs_stat w filePath = inr true →
     fs_readFile w filePath = inr bytes →
     contentTypeGate c w bytes (fileOptions filePath o) (uploadFile c w filePath o))
  ∧ contentTypeGate c w (buffer (decodeBase64 base64)) (base64Options base64 o)
      (uploadBase64 c w base64 o).
Proof.
  split; [|split; [|split; [|split; [|split]]]].
  - intros ct H. unfold resolvedContentType. now rewrite H.
  - intros name mime Hct Hname Hne Hmime.
    unfold resolvedContentType, guessContentType. rewrite Hct, Hname.
    apply truthy_true in Hne. now rewrite Hne, Hmime.
  - apply ensure_image.
  - apply uploadBuffer_gate.
  - intros Hs Hr. rewrite (uploadFile_run c w filePath o bytes Hs Hr).
    apply (uploadBuffer_gate c w (OfBuffer bytes)).
  - rewrite uploadBase64_run.
    apply (uploadBuffer_gate c w (OfBuffer (buffer (decodeBase64 base64)))).
Qed.

(** A text file is turned away and nothing is sent; a GIF under a [.GIF]
    name is sent, and stored, as [image/gif]. *)
Lemma content_type_gate_witness :
  (uploadBuffer Sample.client Sample.world Sample.gif (Sample.typed "text/plain")
     emptyRemote).2 = emptyRemote
  ∧ ensureImageContentType (resolvedContentType (Sample.named "cat.GIF")) = Ok "image/gif"
  ∧ ∃ cmd res,
      uploadBuffer Sample.client Sample.world Sample.gif (Sample.named "cat.GIF") emptyRemote
      = (Ok res, stored cmd emptyRemote)
      ∧ Put.ContentType cmd = "image/gif"
      ∧ Put.Body cmd = ["G"; "I"; "F"]%byte
      ∧ Uploaded.type res = "image/gif".
Proof.
  destruct (content_type_gate Sample.client Sample.world Sample.gif
              (Sample.typed "text/plain") "/tmp/empty.png" "QUJD" [])
    as (_ & _ & _ & Hgate & _).
  destruct (Hgate emptyRemote) as [Hno _].
  destruct (Hno eq_refl) as (e & _ & Hrun).
  split; [rewrite Hrun; reflexivity|].
  destruct (content_type_gate Sample.client Sample.world Sample.gif
              (Sample.named "cat.GIF") "/tmp/empty.png" "QUJD" [])
    as (_ & Hres & Hens & Hgif & _).
  assert (resolvedContentType (Sample.named "cat.GIF") = "image/gif") as Htype.
  { apply (Hres "cat.GIF" "image/gif"); [reflexivity | reflexivity | discriminate |].
    vm_compute. reflexivity. }
  rewrite Htype in Hens. split; [apply Hens; reflexivity|].
  destruct (Hgif emptyRemote) as (_ & _ & Hsend).
  destruct Hsend as (cmd & Hct & Hbody & _ & Hstored & _).
  - rewrite Htype. reflexivity.
  - discriminate.
  - simpl. lia.
  - destruct (Hstored (Some "etag-1") eq_refl) as (res & Hrun' & Hres' & _).
    exists cmd, res. rewrite <- Htype. auto.
Defined.

(** ** Size checks *)

(** C2, as stated, fails: with a ceiling of [-1] bytes the empty buffer is
    longer than the ceiling, yet what [uploadBuffer] throws is the
    empty-file error, not the size-limit error. *)
Lemma size_limit_counterexample :
  newClient Sample.negativeConfig = Ok Sample.negativeClient
  ∧ Z.of_nat (length (toBuffer (OfBuffer []))) > Client.maxSize Sample.negativeClient
  ∧ uploadBuffer Sample.negativeClient Sample.world (OfBuffer []) Options.none emptyRemote
    = (Throw EmptyFile, emptyRemote)
  ∧ ¬ ∃ limit,
        (uploadBuffer Sample.negativeClient Sample.world (OfBuffer []) Options.none
           emptyRemote).1 = Throw (FileTooLarge limit).
Proof.
  split; [vm_compute; reflexivity|].
  split; [reflexivity|].
  split; [reflexivity|].
  intros [limit H]. discriminate H.
Qed.

(** C2, amended.  The ceiling is [maxSizeBytes], or [2 * 1024 * 1024] when
    the field is absent.  A buffer that is not empty and longer than the
    ceiling makes [uploadBuffer] throw the size-limit error, the endpoint
    untouched; a buffer that is not empty and no longer than the ceiling
    passes both size checks: the upload ends at the type check or at the
    send, and no size error is thrown. *)
Theorem size_limit (config : Config.t) (c : Client.t) (w : World)
    (data : BinaryData) (o : Options.t) (r : Remote) :
  newClient config = Ok c →
  length (toBuffer data) ≠ 0%nat →
  Client.maxSize c = default (2 * 1024 * 1024) (Config.maxSizeBytes config)
  ∧ (Z.of_nat (length (toBuffer data)) > Client.maxSize c →
       uploadBuffer c w data o r = (Throw (FileTooLarge (Client.maxSize c)), r))
  ∧ (Z.of_nat (length (toBuffer data)) ≤ Client.maxSize c →
       (stage c data o = AtSend ∨ ∃ e, stage c data o = AtTypeCheck e)
       ∧ ∀ e, (uploadBuffer c w data o r).1 = Throw e →
              e ≠ EmptyFile ∧ ∀ limit, e ≠ FileTooLarge limit).
Proof.
  intros Hnew Hne.
  split; [apply (newClient_fields config c Hnew)|].
  split.
  - intros Hgt. rewrite uploadBuffer_run. now rewrite stage_size.
  - intros Hle. pose proof (stage_type c data o Hne Hle) as Hst.
    split.
    + rewrite Hst. destruct (ensureImageContentType (resolvedContentType o)); eauto.
    + intros e. rewrite uploadBuffer_run, Hst.
      destruct (ensureImageContentType (resolvedContentType o)) as [ct|e'] eqn:E; simpl.
      * destruct (s3_send w (uploadCommand c w data o)); simpl; [discriminate|].
        intros [= <-]. split; [discriminate | intros; discriminate].
      * intros [= <-].
        destruct (ensure_Throw _ _ E) as [[-> _]|[-> _]];
          (split; [discriminate | intros; discriminate]).
Qed.

(** Three bytes pass under the default ceiling of 2 MiB. *)
Lemma size_limit_witness :
  Client.maxSize Sample.client = 2097152
  ∧ stage Sample.client Sample.gif Options.none = AtSend.
Proof.
  assert (length (toBuffer Sample.gif) ≠ 0%nat) as Hne by (simpl; lia).
  destruct (size_limit Sample.config Sample.client Sample.world Sample.gif Options.none
              emptyRemote sample_client Hne) as (Hmax & _ & Hpass).
  split; [exact Hmax|].
  assert (Z.of_nat (length (toBuffer Sample.gif)) ≤ Client.maxSize Sample.client) as Hle
    by (simpl; lia).
  destruct (Hpass Hle) as [[Hs | [e He]] _]; [exact Hs | discriminate He].
Defined.

(** C3. A buffer of length zero makes [uploadBuffer] throw
    'Cannot upload an empty file.' and leaves the endpoint as it was, also
    when the bytes come from [uploadFile] or from [uploadBase64]. *)
Theorem empty_payload (c : Client.t) (w : World) (data : BinaryData)
    (o : Options.t) (filePath base64 : string) (r : Remote) :
  message EmptyFile = "Cannot upload an empty file."
  ∧ (length (toBuffer data) = 0%nat →
       uploadBuffer c w data o r = (Throw EmptyFile, r))
  ∧ (fs_stat w filePath = inr true →
     fs_readFile w filePath = inr [] →
       uploadFile c w filePath o r = (Throw EmptyFile, r))
  ∧ (length (buffer (decodeBase64 base64)) = 0%nat →
       uploadBase64 c w base64 o r = (Throw EmptyFile, r)).
Proof.
  split; [reflexivity|]. split; [|split].
  - intros H. rewrite uploadBuffer_run. now rewrite stage_empty.
  - intros Hs Hr. rewrite (uploadFile_run c w filePath o [] Hs Hr).
    rewrite uploadBuffer_run. now rewrite stage_empty.
  - intros H. rewrite uploadBase64_run, uploadBuffer_run. now rewrite stage_empty.
Qed.

(** An empty view of a larger array, an empty file and a string without a
    single base64 digit. *)
Lemma empty_payload_witness :
  uploadBuffer Sample.client Sample.world (OfUint8Array ["G"; "I"; "F"]%byte 1 0)
    (Sample.named "cat.gif") emptyRemote = (Throw EmptyFile, emptyRemote)
  ∧ uploadFile Sample.client Sample.world "/tmp/empty.png" Options.none emptyRemote
    = (Throw EmptyFile, emptyRemote)
  ∧ uploadBase64 Sample.client Sample.world "!!!!" Options.none emptyRemote
    = (Throw EmptyFile, emptyRemote).
Proof.
  split; [|split].
  - apply (empty_payload Sample.client Sample.world
             (OfUint8Array ["G"; "I"; "F"]%byte 1 0) (Sample.named "cat.gif")
             "/tmp/empty.png" "!!!!" emptyRemote).
    reflexivity.
  - apply (empty_payload Sample.client Sample.world Sample.gif Options.none
             "/tmp/empty.png" "!!!!" emptyRemote); reflexivity.
  - apply (empty_payload Sample.client Sample.world Sample.gif Options.none
             "/tmp/empty.png" "!!!!" emptyRemote).
    reflexivity.
Defined.

Lemma uploadFile_validation (c : Client.t) (w : World) (filePath : string)
    (o : Options.t) (r r' : Remote) (e : Error) :
  uploadFile c w filePath o r = (Throw e, r') → is_validation e = true → r' = r.
Proof.
  unfold uploadFile.
  destruct (fs_stat w filePath) as [reason|[|]]; simpl;
    try (intros [= <- <-]; discriminate).
  destruct (fs_readFile w filePath) as [reason|bytes];
    [intros [= <- <-]; discriminate | apply uploadBuffer_validation].
Qed.

(** C10. An upload that throws a validation error (empty payload, oversized
    payload, content type that is missing or not an image) has not sent
    anything: the endpoint is as it was before the call, whichever of the
    three entry points was used.  Every check of [uploadBuffer] comes before
    its only [send], so an upload sends one command at most. *)
Theorem validation_before_send (c : Client.t) (w : World) (data : BinaryData)
    (o : Options.t) (filePath base64 : string) (r r' : Remote) (e : Error) :
  is_validation e = true →
  uploadBuffer c w data o r = (Throw e, r')
  ∨ uploadFile c w filePath o r = (Throw e, r')
  ∨ uploadBase64 c w base64 o r = (Throw e, r') →
  r' = r
  ∧ (e = EmptyFile ∨ (∃ limit, e = FileTooLarge limit)
     ∨ e = NoContentType ∨ ∃ ct, e = NotImage ct)
  ∧ ∀ r0, sent (uploadBuffer c w data o r0).2 = sent r0
          ∨ ∃ cmd, sent (uploadBuffer c w data o r0).2 = sent r0 ++ [cmd].
Proof.
  intros Hval Hrun. split; [|split].
  - destruct Hrun as [H|[H|H]].
    + eapply uploadBuffer_validation; eassumption.
    + eapply uploadFile_validation; eassumption.
    + rewrite uploadBase64_run in H. eapply uploadBuffer_validation; eassumption.
  - destruct e; try discriminate Hval; eauto.
  - intros r0. destruct (uploadBuffer_sent c w data o r0); eauto.
Qed.

(** A video is turned away and nothing is sent. *)
Lemma validation_before_send_witness :
  sent (uploadBuffer Sample.client Sample.world Sample.gif (Sample.typed "video/mp4")
          emptyRemote).2 = [].
Proof.
  remember (uploadBuffer Sample.client Sample.world Sample.gif (Sample.typed "video/mp4")
              emptyRemote) as run eqn:Hrun.
  assert (run = (Throw (NotImage "video/mp4"), run.2)) as Heq
    by (rewrite Hrun; reflexivity).
  rewrite Hrun in Heq at 1.
  destruct (validation_before_send Sample.client Sample.world Sample.gif
              (Sample.typed "video/mp4") "/tmp/empty.png" "QUJD" emptyRemote run.2
              (NotImage "video/mp4") eq_refl (or_introl Heq)) as (-> & _).
  reflexivity.
Defined.

(** ** Object keys *)

(** A name that begins with [image/] is no member of [Object.prototype]:
    the read finds what the table itself holds. *)
Lemma tableText_image (table : gmap string string) (name : string) :
  Js.startsWith "image/" name = true → tableText table name = table !! name.
Proof.
  intros H. unfold tableText. destruct (table !! name); [reflexivity|].
  pose proof prototype_names_apart as Hall. rewrite Forall_forall in Hall.
  case_bool_decide as Hin.
  - destruct (Hall name) as (_ & _ & Hno); [apply elem_of_cons; now right | congruence].
  - case_bool_decide as Hp; [|reflexivity]. subst. discriminate.
Qed.

(** The extension a generated key ends in. *)
Lemma guessExtension_cases (originalName : option string) (contentType : string) :
  (∃ name e, originalName = Some name
             ∧ NodePath.extname name = String "."%char e ∧ e ≠ ""
             ∧ guessExtension originalName contentType = Some (Js.toLowerCase e))
  ∨ (match originalName with
     | Some name => NodePath.extname name = "" ∨ NodePath.extname name = "."
     | None => True
     end
     ∧ guessExtension originalName contentType = tableText EXT_BY_MIME contentType).
Proof.
  unfold guessExtension, nameExt.
  destruct originalName as [name|]; [|right; split; [exact I | reflexivity]].
  destruct (Js.truthy name) eqn:Hname.
  - destruct (extname_shape name) as [He | [e He]].
    + right. rewrite He. split; [now left | reflexivity].
    + rewrite He. simpl. destruct e as [|a e].
      * right. split; [now right | reflexivity].
      * left. exists name, (String a e). repeat split; [assumption | discriminate].
  - right. apply truthy_false in Hname as ->. split; [now left | reflexivity].
Qed.

Lemma buildKey_absent (c : Client.t) (w : World) (originalName : option string)
    (contentType : string) :
  buildKey c w None originalName contentType =
  let filename :=
    pretty (Date_now w) +:+ "-" +:+ randomUUID w +:+ "."
    +:+ default "jpg" (guessExtension originalName contentType) in
  if bool_decide (Client.prefix c = "") then filename
  else Client.prefix c +:+ "/" +:+ filename.
Proof.
  unfold buildKey, Js.truthy; simpl.
  destruct (bool_decide (Client.prefix c = "")); reflexivity.
Qed.

(** C4. When the caller supplies no key, the key of a successful upload is
    [<prefix>/<unix-millis>-<random-id>.<ext>], without [<prefix>/] when the
    prefix is empty; the prefix is the configured [keyPrefix] (or [images])
    with the slashes at its ends removed.  [<ext>] is the extension of the
    original filename, lower-cased and without its dot, when the filename
    has one; otherwise the entry of the MIME-to-extension table for the
    resolved content type; otherwise [jpg]. *)
Theorem generated_key (config : Config.t) (c : Client.t) (w : World)
    (data : BinaryData) (o : Options.t) (r r' : Remote) (res : Uploaded.t) :
  newClient config = Ok c →
  Options.key o = None →
  uploadBuffer c w data o r = (Ok res, r') →
  ∃ ext,
    Uploaded.key res =
      (let prefix := trimSlashes (default "images" (Config.keyPrefix config)) in
       let filename :=
         pretty (Date_now w) +:+ "-" +:+ randomUUID w +:+ "." +:+ ext in
       if bool_decide (prefix = "") then filename
       else prefix +:+ "/" +:+ filename)
    ∧ ((∃ name e, Options.originalName o = Some name
                  ∧ NodePath.extname name = String "."%char e ∧ e ≠ ""
                  ∧ ext = Js.toLowerCase e)
       ∨ (match Options.originalName o with
          | Some name => NodePath.extname name = "" ∨ NodePath.extname name = "."
          | None => True
          end
          ∧ ext = default "jpg" (EXT_BY_MIME !! resolvedContentType o))).
Proof.
  intros Hnew Hkey Hrun.
  apply newClient_fields in Hnew as (_ & _ & Hprefix & _).
  apply uploadBuffer_Ok in Hrun as (tag & _ & -> & _ & Himg).
  unfold uploaded, uploadCommand; simpl. rewrite Hkey, buildKey_absent, Hprefix.
  destruct (guessExtension_cases (Options.originalName o) (resolvedContentType o))
    as [(name & e & Hn & He & Hne & Hg) | [Hno Hg]]; rewrite Hg.
  - exists (Js.toLowerCase e). split; [reflexivity|]. left. exists name, e. auto.
  - rewrite (tableText_image _ _ Himg).
    exists (default "jpg" (EXT_BY_MIME !! resolvedContentType o)).
    split; [reflexivity|]. right. auto.
Qed.

(** [cat.GIF] goes to [images/<millis>-<uuid>.gif]. *)
Lemma generated_key_witness :
  ∃ ext,
    Sample.generatedKey "gif" =
      "images" +:+ "/" +:+ pretty 1700000000000 +:+ "-"
      +:+ "123e4567-e89b-12d3-a456-426614174000" +:+ "." +:+ ext.
Proof.
  assert (uploadBuffer Sample.client Sample.world Sample.gif (Sample.named "cat.GIF")
            emptyRemote
          = (Ok {| Uploaded.url := "https://cdn.example.com/" +:+ Sample.generatedKey "gif";
                   Uploaded.key := Sample.generatedKey "gif";
                   Uploaded.bucket := "pics";
                   Uploaded.size := 3;
                   Uploaded.type := "image/gif";
                   Uploaded.etag := Some "etag-1" |},
             (uploadBuffer Sample.client Sample.world Sample.gif (Sample.named "cat.GIF")
                emptyRemote).2)) as Hrun
    by (vm_compute; reflexivity).
  destruct (generated_key Sample.config Sample.client Sample.world Sample.gif
              (Sample.named "cat.GIF") emptyRemote _ _ sample_client eq_refl Hrun)
    as (ext & Hkey & _).
  exists ext. exact Hkey.
Defined.

(** C5, as stated, fails: a key of one blank is supplied, and the upload is
    stored under a generated key with prefix, timestamp and random id. *)
Lemma supplied_key_counterexample :
  Options.key (Sample.keyed " ") = Some " "
  ∧ normalizeKey " " = " "
  ∧ ∃ res r',
      uploadBuffer Sample.client Sample.world Sample.gif (Sample.keyed " ") emptyRemote
      = (Ok res, r')
      ∧ Uploaded.key res = Sample.generatedKey "jpg"
      ∧ Uploaded.key res ≠ normalizeKey " ".
Proof.
  split; [reflexivity|]. split; [reflexivity|].
  eexists _, _. split; [vm_compute; reflexivity|].
  split; [reflexivity | discriminate].
Qed.

Lemma trim_blank (k : string) : Js.trim k = "" → keyGiven (Some k) = None.
Proof.
  intros H. unfold keyGiven. rewrite H. simpl. now rewrite andb_false_r.
Qed.

Lemma buildKey_blank (c : Client.t) (w : World) (k : string)
    (originalName : option string) (contentType : string) :
  Js.trim k = "" →
  buildKey c w (Some k) originalName contentType
  = buildKey c w None originalName contentType.
Proof. intros H. unfold buildKey. now rewrite (trim_blank k H). Qed.

(** C5, amended.  A supplied key that holds a character other than white
    space is used as [normalizeKey] leaves it (leading slashes removed, then
    every backslash turned into a slash), whatever the prefix, the clock
    and the random id: the result and the stored command both carry it.  A
    key with no leading slash and no backslash is used verbatim.  A supplied
    key that is empty or holds white space only counts as absent: the
    upload runs as it does without a key, and its key is the generated
    [<prefix>/<unix-millis>-<random-id>.<ext>]. *)
Theorem supplied_key (c : Client.t) (w : World) (data : BinaryData)
    (o : Options.t) (k : string) (r r' : Remote) (res : Uploaded.t) :
  Options.key o = Some k →
  uploadBuffer c w data o r = (Ok res, r') →
  (Js.trim k ≠ "" →
     Uploaded.key res = normalizeKey k
     ∧ (∃ cmd, sent r' = sent r ++ [cmd] ∧ Put.Key cmd = normalizeKey k
               ∧ objects r' !! (Put.Bucket cmd, normalizeKey k) = Some cmd)
     ∧ (Js.startsWith "/" k = false → noBackslash k = true → Uploaded.key res = k))
  ∧ (Js.trim k = "" →
     (∀ r0, uploadBuffer c w data o r0
            = uploadBuffer c w data
                {| Options.key := None;
                   Options.originalName := Options.originalName o;
                   Options.contentType := Options.contentType o;
                   Options.metadata := Options.metadata o |} r0)
     ∧ Uploaded.key res =
         (let filename :=
            pretty (Date_now w) +:+ "-" +:+ randomUUID w +:+ "."
            +:+ default "jpg"
                  (guessExtension (Options.originalName o) (resolvedContentType o)) in
          if bool_decide (Client.prefix c = "") then filename
          else Client.prefix c +:+ "/" +:+ filename)
     ∧ ∃ cmd, sent r' = sent r ++ [cmd] ∧ Put.Key cmd = Uploaded.key res
              ∧ objects r' !! (Put.Bucket cmd, Uploaded.key res) = Some cmd).
Proof.
  intros Hkey Hrun. split.
  - intros Htrim.
    apply uploadBuffer_Ok in Hrun as (tag & _ & -> & -> & _).
    assert (Put.Key (uploadCommand c w data o) = normalizeKey k) as Hk.
    { unfold uploadCommand, buildKey; simpl. now rewrite Hkey, (trim_nonempty k Htrim). }
    split; [exact Hk|]. split.
    + exists (uploadCommand c w data o). split; [reflexivity|]. split; [exact Hk|].
      rewrite <- Hk. apply lookup_insert_eq.
    + intros Hs Hb. change (Uploaded.key (uploaded c w data o tag))
        with (Put.Key (uploadCommand c w data o)).
      rewrite Hk. now apply normalizeKey_verbatim.
  - intros Hblank.
    assert (∀ n ct, buildKey c w (Options.key o) n ct = buildKey c w None n ct) as Hbuild
      by (intros; rewrite Hkey; now apply buildKey_blank).
    split; [|split].
    + intros r0. rewrite !uploadBuffer_run.
      change (stage c data {| Options.key := None;
                              Options.originalName := Options.originalName o;
                              Options.contentType := Options.contentType o;
                              Options.metadata := Options.metadata o |})
        with (stage c data o).
      destruct (stage c data o); try reflexivity.
      unfold uploaded, stored, refused, uploadCommand; simpl.
      change (resolvedContentType {| Options.key := None;
                                     Options.originalName := Options.originalName o;
                                     Options.contentType := Options.contentType o;
                                     Options.metadata := Options.metadata o |})
        with (resolvedContentType o).
      rewrite Hbuild. reflexivity.
    + apply uploadBuffer_Ok in Hrun as (tag & _ & -> & _ & _).
      simpl. rewrite Hbuild. apply buildKey_absent.
    + apply uploadBuffer_Ok in Hrun as (tag & _ & -> & -> & _).
      exists (uploadCommand c w data o). split; [reflexivity|]. split; [reflexivity|].
      apply lookup_insert_eq.
Qed.

(** The key [/pets\cat.gif] is stored as [pets/cat.gif]; the key of one
    blank is passed over and a key is generated. *)
Lemma supplied_key_witness :
  (uploadBuffer Sample.client Sample.world Sample.gif (Sample.keyed "/pets\cat.gif")
     emptyRemote).1
  = Ok {| Uploaded.url := "https://cdn.example.com/pets/cat.gif";
          Uploaded.key := normalizeKey "/pets\cat.gif";
          Uploaded.bucket := "pics";
          Uploaded.size := 3;
          Uploaded.type := "image/jpeg";
          Uploaded.etag := Some "etag-1" |}
  ∧ normalizeKey "/pets\cat.gif" = "pets/cat.gif"
  ∧ ∃ res r',
      uploadBuffer Sample.client Sample.world Sample.gif (Sample.keyed " ") emptyRemote
      = (Ok res, r')
      ∧ Uploaded.key res = Sample.generatedKey "jpg".
Proof.
  assert (Js.trim "/pets\cat.gif" ≠ "") as Htrim by discriminate.
  assert (∃ res r',
            uploadBuffer Sample.client Sample.world Sample.gif
              (Sample.keyed "/pets\cat.gif") emptyRemote = (Ok res, r')
            ∧ Uploaded.url res = "https://cdn.example.com/pets/cat.gif"
            ∧ Uploaded.bucket res = "pics" ∧ Uploaded.size res = 3
            ∧ Uploaded.type res = "image/jpeg" ∧ Uploaded.etag res = Some "etag-1")
    as (res & r' & Hrun & Hurl & Hb & Hs & Ht & He).
  { eexists _, _. split; [vm_compute; reflexivity|]. repeat split. }
  destruct (supplied_key Sample.client Sample.world Sample.gif
              (Sample.keyed "/pets\cat.gif") "/pets\cat.gif" emptyRemote r' res
              eq_refl Hrun) as [Hgiven _].
  destruct (Hgiven Htrim) as (Hk & _).
  split; [|split; [reflexivity|]].
  { rewrite Hrun. simpl. destruct res; simpl in *. congruence. }
  assert (∃ res r',
            uploadBuffer Sample.client Sample.world Sample.gif (Sample.keyed " ")
              emptyRemote = (Ok res, r')) as (res2 & r2 & Hrun2).
  { eexists _, _. rewrite uploadBuffer_run. vm_compute. reflexivity. }
  destruct (supplied_key Sample.client Sample.world Sample.gif (Sample.keyed " ") " "
              emptyRemote r2 res2 eq_refl Hrun2) as [_ Hblank].
  destruct (Hblank eq_refl) as (_ & Hgen & _).
  exists res2, r2. split; [exact Hrun2|]. rewrite Hgen. vm_compute. reflexivity.
Defined.

(** ** The result of an upload *)



(** ** The put-object command *)

Lemma buildMetadata_upload_time (w : World) (metadata : option (gmap string string))
    (originalName : option string) :
  buildMetadata w metadata originalName !! "upload-time" = Some (toISOString w).
Proof. unfold buildMetadata. apply lookup_insert_eq. Qed.

Lemma buildMetadata_original_name (w : World) (metadata : option (gmap string string))
    (name : string) :
  name ≠ "" →
  buildMetadata w metadata (Some name) !! "original-name" = Some name.
Proof.
  intros Hne%truthy_true. unfold buildMetadata. rewrite Hne.
  rewrite lookup_insert_ne by discriminate. apply lookup_insert_eq.
Qed.

Lemma buildMetadata_caller (w : World) (m : gmap string string)
    (originalName : option string) (k v : string) :
  m !! k = Some v →
  k ≠ "upload-time" →
  k ≠ "original-name" ∨ nameKnown originalName = false →
  buildMetadata w (Some m) originalName !! k = Some v.
Proof.
  intros Hk Htime Hname. unfold buildMetadata.
  rewrite lookup_insert_ne by congruence.
  destruct originalName as [name|]; [|exact Hk].
  destruct (Js.truthy name) eqn:Ht; [|exact Hk].
  destruct Hname as [Hname | Hname]; [|simpl in Hname; congruence].
  now rewrite lookup_insert_ne by congruence.
Qed.

(** C8, as stated, fails: the caller's [upload-time] entry is not in the
    metadata that is sent; the timestamp took its place. *)
Lemma put_command_counterexample :
  ({["upload-time" := "yesterday"]} : gmap string string) !! "upload-time"
  = Some "yesterday"
  ∧ ∃ res r' cmd,
      uploadBuffer Sample.client Sample.world Sample.gif
        (Sample.tagged {["upload-time" := "yesterday"]}) emptyRemote = (Ok res, r')
      ∧ sent r' = [cmd]
      ∧ Put.Metadata cmd !! "upload-time" = Some "2023-11-14T22:13:20.000Z"
      ∧ Put.Metadata cmd !! "upload-time" ≠ Some "yesterday".
Proof.
  split; [apply lookup_singleton_eq|].
  eexists _, _, _. split; [rewrite uploadBuffer_run; vm_compute; reflexivity|].
  split; [reflexivity|].
  split; [vm_compute; reflexivity | vm_compute; discriminate].
Qed.

(** C8, amended.  A successful upload sends exactly one put-object command.
    Its cache-control header is the configured [cacheControl], or
    'public, max-age=31536000' when none is configured.  Its metadata has
    an [upload-time] entry holding the timestamp, an [original-name] entry
    holding the original filename when one is known, and every pair of the
    caller's metadata whose key is not [upload-time] and is not
    [original-name] when a filename is known. *)
Theorem put_command (config : Config.t) (c : Client.t) (w : World)
    (data : BinaryData) (o : Options.t) (r r' : Remote) (res : Uploaded.t) :
  newClient config = Ok c →
  uploadBuffer c w data o r = (Ok res, r') →
  ∃ cmd,
    sent r' = sent r ++ [cmd]
    ∧ Put.CacheControl cmd
      = default "public, max-age=31536000" (Config.cacheControl config)
    ∧ Put.Metadata cmd !! "upload-time" = Some (toISOString w)
    ∧ (∀ name, Options.originalName o = Some name → name ≠ "" →
         Put.Metadata cmd !! "original-name" = Some name)
    ∧ (∀ m k v,
         Options.metadata o = Some m →
         m !! k = Some v →
         k ≠ "upload-time" →
         k ≠ "original-name" ∨ nameKnown (Options.originalName o) = false →
         Put.Metadata cmd !! k = Some v).
Proof.
  intros Hnew Hrun.
  apply newClient_fields in Hnew as (_ & _ & _ & _ & Hcc).
  apply uploadBuffer_Ok in Hrun as (tag & _ & -> & -> & _).
  exists (uploadCommand c w data o).
  split; [reflexivity|]. split; [exact Hcc|]. split; [|split].
  - apply buildMetadata_upload_time.
  - intros name Hname Hne. unfold uploadCommand; simpl. rewrite Hname.
    now apply buildMetadata_original_name.
  - intros m k v Hm Hk Htime Hnm. unfold uploadCommand; simpl. rewrite Hm.
    now apply buildMetadata_caller.
Qed.

Lemma put_command_witness :
  ∃ cmd,
    sent (uploadBuffer Sample.client Sample.world Sample.gif (Sample.named "cat.gif")
            emptyRemote).2 = [cmd]
    ∧ Put.CacheControl cmd = "public, max-age=31536000"
    ∧ Put.Metadata cmd !! "original-name" = Some "cat.gif".
Proof.
  assert (∃ res r',
            uploadBuffer Sample.client Sample.world Sample.gif (Sample.named "cat.gif")
              emptyRemote = (Ok res, r'))
    as (res & r' & Hrun).
  { eexists _, _. rewrite uploadBuffer_run. vm_compute. reflexivity. }
  destruct (put_command Sample.config Sample.client Sample.world Sample.gif
              (Sample.named "cat.gif") emptyRemote r' res sample_client Hrun)
    as (cmd & Hsent & Hcc & _ & Hname & _).
  exists cmd. rewrite Hrun. split; [exact Hsent|]. split; [exact Hcc|].
  apply Hname; [reflexivity | discriminate].
Defined.

(** ** The default content type *)

Lemma MIME_BY_EXT_image (ext mime : string) :
  MIME_BY_EXT !! ext = Some mime → Js.startsWith "image/" mime = true.
Proof.
  intros H. apply elem_of_list_to_map_2 in H.
  repeat (apply elem_of_cons in H as [[= -> ->]|H]; [reflexivity|]).
  now apply elem_of_nil in H.
Qed.

Lemma guessContentType_image (originalName : option string) (mime : string) :
  guessContentType originalName = Some mime → Js.startsWith "image/" mime = true.
Proof.
  unfold guessContentType. destruct originalName as [name|]; [|discriminate].
  destruct (Js.truthy name); [apply MIME_BY_EXT_image | discriminate].
Qed.

Lemma guessContentType_none (originalName : option string) :
  (originalName = None
   ∨ ∃ name, originalName = Some name
             ∧ MIME_BY_EXT !! Js.toLowerCase (NodePath.extname name) = None) →
  guessContentType originalName = None.
Proof.
  intros [-> | (name & -> & H)]; [reflexivity|].
  unfold guessContentType. now destruct (Js.truthy name).
Qed.

(** Only an empty string that the caller supplied resolves to the empty
    content type. *)
Lemma resolved_empty (o : Options.t) :
  resolvedContentType o = "" ↔ Options.contentType o = Some "".
Proof.
  unfold resolvedContentType. destruct (Options.contentType o) as [ct|].
  - split; [now intros -> | now intros [= ->]].
  - split; [|discriminate].
    destruct (guessContentType (Options.originalName o)) as [mime|] eqn:E;
      simpl; [|discriminate].
    intros ->. now apply guessContentType_image in E.
Qed.

(** C9, as stated, fails: a caller that supplies the empty string as
    [contentType] reaches the 'Unable to determine content type' branch of
    [ensureImageContentType] from [uploadBuffer]. *)
Lemma default_content_type_counterexample :
  uploadBuffer Sample.client Sample.world Sample.gif (Sample.typed "") emptyRemote
  = (Throw NoContentType, emptyRemote)
  ∧ ensureImageContentType (resolvedContentType (Sample.typed "")) = Throw NoContentType
  ∧ Js.startsWith "Unable to determine content type." (message NoContentType) = true.
Proof. repeat split. Qed.

(** C9, amended.  When no [contentType] is supplied and the original
    filename is absent or its extension is not in the extension-to-MIME
    table, the content type resolves to [image/jpeg], the type check lets
    it through, and a buffer that passed the size checks is sent with that
    type.  The 'Unable to determine content type' branch is reached from
    [uploadBuffer] exactly when the caller supplies the empty string as
    [contentType] and the buffer passed the size checks. *)
Theorem default_content_type (c : Client.t) (w : World) (data : BinaryData)
    (o : Options.t) (r : Remote) :
  (Options.contentType o = None →
   (Options.originalName o = None
    ∨ ∃ name, Options.originalName o = Some name
              ∧ MIME_BY_EXT !! Js.toLowerCase (NodePath.extname name) = None) →
     resolvedContentType o = "image/jpeg"
     ∧ ensureImageContentType (resolvedContentType o) = Ok "image/jpeg"
     ∧ (length (toBuffer data) ≠ 0%nat →
        Z.of_nat (length (toBuffer data)) ≤ Client.maxSize c →
          ∃ cmd, sent (uploadBuffer c w data o r).2 = sent r ++ [cmd]
                 ∧ Put.ContentType cmd = "image/jpeg"))
  ∧ ((uploadBuffer c w data o r).1 = Throw NoContentType
     ↔ Options.contentType o = Some ""
       ∧ length (toBuffer data) ≠ 0%nat
       ∧ Z.of_nat (length (toBuffer data)) ≤ Client.maxSize c).
Proof.
  split.
  - intros Hct Hname. apply guessContentType_none in Hname.
    assert (resolvedContentType o = "image/jpeg") as Hres.
    { unfold resolvedContentType. now rewrite Hct, Hname. }
    split; [exact Hres|]. split; [now rewrite Hres|].
    intros Hne Hle. exists (uploadCommand c w data o).
    split; [|exact Hres].
    rewrite uploadBuffer_run, stage_send; [| assumption | assumption | now rewrite Hres].
    destruct (s3_send w (uploadCommand c w data o)); reflexivity.
  - rewrite uploadBuffer_run. split.
    + destruct (stage c data o) as [| |e|] eqn:Hst; simpl; try discriminate.
      * intros [= ->]. apply stage_type_inv in Hst as (Hne & Hle & He).
        apply ensure_Throw in He as [[_ He] | [? _]]; [|discriminate].
        apply resolved_empty in He. auto.
      * destruct (s3_send w (uploadCommand c w data o)); discriminate.
    + intros (Hct & Hne & Hle). rewrite stage_type by assumption.
      apply resolved_empty in Hct. rewrite Hct. reflexivity.
Qed.

Lemma default_content_type_witness :
  resolvedContentType (Sample.named "notes.txt") = "image/jpeg"
  ∧ ∃ cmd,
      sent (uploadBuffer Sample.client Sample.world Sample.gif (Sample.named "notes.txt")
              emptyRemote).2 = [cmd]
      ∧ Put.ContentType cmd = "image/jpeg".
Proof.
  destruct (default_content_type Sample.client Sample.world Sample.gif
              (Sample.named "notes.txt") emptyRemote) as [Hdefault _].
  destruct Hdefault as (Hres & _ & Hsend).
  - reflexivity.
  - right. exists "notes.txt". split; [reflexivity | vm_compute; reflexivity].
  - split; [exact Hres|]. apply Hsend; [simpl; lia | simpl; lia].
Defined.

(** ** Base64 input *)

(** The text [decodeBase64] hands to the decoder: the payload of a data
    URI, or the whole trimmed input. *)
Lemma decodeBase64_buffer (input : string) :
  buffer (decodeBase64 input) =
  NodeBuffer.fromBase64
    match matchDataUri (Js.trim input) with
    | Some (_, encoded) => encoded
    | None => Js.trim input
    end.
Proof.
  unfold decodeBase64. destruct (matchDataUri (Js.trim input)) as [[mime encoded]|];
    reflexivity.
Qed.

(** C7, as stated, fails: ['QUJD!'] is neither a data URI nor base64 text,
    and [uploadBase64] stores the three bytes its first four digits stand
    for; no error is thrown and one command is sent. *)
Lemma undecodable_base64_counterexample :
  base64Text "QUJD!" = false
  ∧ matchDataUri (Js.trim "QUJD!") = None
  ∧ ∃ res r' cmd,
      uploadBase64 Sample.client Sample.world "QUJD!" Options.none emptyRemote
      = (Ok res, r')
      ∧ sent r' = [cmd]
      ∧ Put.Body cmd = ["A"; "B"; "C"]%byte
      ∧ Uploaded.size res = 3.
Proof.
  split; [reflexivity|]. split; [reflexivity|].
  eexists _, _, _.
  split; [rewrite uploadBase64_run, uploadBuffer_run; vm_compute; reflexivity|].
  repeat split.
Qed.

(** C7, amended.  [uploadBase64] has no error of its own for text that is
    not base64: decoding is total and lenient, and its bytes go to
    [uploadBuffer].  So [uploadBase64] fails only with one of the
    validation errors of [uploadBuffer], thrown before anything is sent, or
    with the failure of the one command it sent; text in which the decoder
    finds no byte fails with the empty-file error. *)
Theorem undecodable_base64 (c : Client.t) (w : World) (base64 : string)
    (o : Options.t) (r : Remote) :
  uploadBase64 c w base64 o r
  = uploadBuffer c w
      (OfBuffer
         (NodeBuffer.fromBase64
            match matchDataUri (Js.trim base64) with
            | Some (_, encoded) => encoded
            | None => Js.trim base64
            end))
      (base64Options base64 o) r
  ∧ (buffer (decodeBase64 base64) = [] →
       uploadBase64 c w base64 o r = (Throw EmptyFile, r))
  ∧ (∀ e r', uploadBase64 c w base64 o r = (Throw e, r') →
       (is_validation e = true ∧ r' = r)
       ∨ ∃ reason cmd, e = SendFailure reason
                       ∧ s3_send w cmd = Rejected reason
                       ∧ sent r' = sent r ++ [cmd]
                       ∧ objects r' = objects r).
Proof.
  split; [|split].
  - rewrite uploadBase64_run, decodeBase64_buffer. reflexivity.
  - intros H. rewrite uploadBase64_run, uploadBuffer_run, stage_empty;
      [reflexivity | simpl; now rewrite H].
  - intros e r'. rewrite uploadBase64_run, uploadBuffer_run.
    destruct (stage c _ (base64Options base64 o)) as [| |e0|] eqn:Hst.
    + intros [= <- <-]. left. split; reflexivity.
    + intros [= <- <-]. left. split; reflexivity.
    + intros [= <- <-]. left. split; [|reflexivity].
      apply stage_type_inv in Hst as (_ & _ & He).
      apply ensure_Throw in He as [[-> _] | [-> _]]; reflexivity.
    + destruct (s3_send w _) as [tag|reason] eqn:Hsend; [discriminate|].
      intros [= <- <-]. right. eexists reason, _. split; [reflexivity|].
      split; [exact Hsend|]. split; reflexivity.
Qed.

(** Text without a base64 digit is turned away as an empty file. *)
Lemma undecodable_base64_witness :
  uploadBase64 Sample.client Sample.world "?!" Options.none emptyRemote
  = (Throw EmptyFile, emptyRemote).
Proof.
  destruct (undecodable_base64 Sample.client Sample.world "?!" Options.none emptyRemote)
    as (_ & Hempty & _).
  apply Hempty. reflexivity.
Defined.

(** * Further properties of the module *)

(** ** Slashes *)

Lemma dropLeadingSlashes_first (s : string) :
  firstChar (Js.dropLeadingSlashes s) ≠ Some "/"%char.
Proof.
  induction s as [|c s IH]; simpl; [discriminate|].
  unfold Js.is_slash. destruct (bool_decide_reflect (c = "/"%char)); [exact IH|].
  simpl. congruence.
Qed.

Lemma dropLeadingSlashes_id (s : string) :
  firstChar s ≠ Some "/"%char → Js.dropLeadingSlashes s = s.
Proof.
  destruct s as [|c s]; simpl; [reflexivity|]. intros H.
  unfold Js.is_slash. destruct (bool_decide_reflect (c = "/"%char)); congruence.
Qed.

Lemma dropTrailingSlashes_last (s : string) :
  lastChar (Js.dropTrailingSlashes s) ≠ Some "/"%char.
Proof.
  induction s as [|c s IH]; simpl; [discriminate|].
  destruct (Js.dropTrailingSlashes s) as [|d t] eqn:E.
  - unfold Js.is_slash. destruct (bool_decide_reflect (c = "/"%char)); simpl; congruence.
  - exact IH.
Qed.

Lemma dropTrailingSlashes_first (s : string) :
  firstChar s ≠ Some "/"%char → firstChar (Js.dropTrailingSlashes s) ≠ Some "/"%char.
Proof.
  destruct s as [|c s]; simpl; [discriminate|]. intros H.
  destruct (Js.dropTrailingSlashes s); [|exact H].
  destruct (Js.is_slash c); [discriminate | exact H].
Qed.

Lemma dropTrailingSlashes_id (s : string) :
  lastChar s ≠ Some "/"%char → Js.dropTrailingSlashes s = s.
Proof.
  induction s as [|c s IH]; simpl; [reflexivity|].
  destruct s as [|d t].
  - intros H. simpl. unfold Js.is_slash.
    destruct (bool_decide_reflect (c = "/"%char)); congruence.
  - intros H. rewrite IH by exact H. reflexivity.
Qed.

Lemma dropTrailingSlashes_app_slash (s : string) :
  Js.dropTrailingSlashes (s +:+ "/") = Js.dropTrailingSlashes s.
Proof.
  induction s as [|c s IH]; [reflexivity|].
  change (String c s +:+ "/") with (String c (s +:+ "/")).
  simpl. now rewrite IH.
Qed.

Lemma noBackslash_backslashesToSlashes (s : string) :
  noBackslash (Js.backslashesToSlashes s) = true.
Proof.
  induction s as [|c s IH]; simpl; [reflexivity|]. rewrite IH.
  destruct (bool_decide_reflect (c = "\"%char)) as [->|Hc]; [reflexivity|].
  simpl. rewrite andb_true_r. now apply negb_true_iff, bool_decide_eq_false.
Qed.

(** X1. [trimTrailingSlash] leaves no slash at the end and [trimSlashes]
    none at either end; both leave a string without such slashes as it is,
    so applying them twice is applying them once. *)
Theorem trim_slashes (value : string) :
  lastChar (trimTrailingSlash value) ≠ Some "/"%char
  ∧ firstChar (trimSlashes value) ≠ Some "/"%char
  ∧ lastChar (trimSlashes value) ≠ Some "/"%char
  ∧ (lastChar value ≠ Some "/"%char → trimTrailingSlash value = value)
  ∧ (firstChar value ≠ Some "/"%char → lastChar value ≠ Some "/"%char →
       trimSlashes value = value)
  ∧ trimTrailingSlash (trimTrailingSlash value) = trimTrailingSlash value
  ∧ trimSlashes (trimSlashes value) = trimSlashes value.
Proof.
  unfold trimTrailingSlash, trimSlashes.
  assert (firstChar (Js.dropTrailingSlashes (Js.dropLeadingSlashes value)) ≠ Some "/"%char)
    as Hfirst by apply dropTrailingSlashes_first, dropLeadingSlashes_first.
  repeat split.
  - apply dropTrailingSlashes_last.
  - exact Hfirst.
  - apply dropTrailingSlashes_last.
  - apply dropTrailingSlashes_id.
  - intros Hf Hl. now rewrite dropLeadingSlashes_id, dropTrailingSlashes_id.
  - apply dropTrailingSlashes_idem.
  - rewrite (dropLeadingSlashes_id _ Hfirst). apply dropTrailingSlashes_idem.
Qed.

Lemma trim_slashes_witness :
  trimTrailingSlash "https://cdn.example.com" = "https://cdn.example.com"
  ∧ trimSlashes "img/2024" = "img/2024".
Proof.
  destruct (trim_slashes "https://cdn.example.com") as (_ & _ & _ & Hid & _).
  destruct (trim_slashes "img/2024") as (_ & _ & _ & _ & Hid2 & _).
  split; [apply Hid; discriminate | apply Hid2; discriminate].
Defined.

Lemma dropTrailingSlashes_slashes (b : string) (n : nat) :
  Js.dropTrailingSlashes (b +:+ slashes n) = Js.dropTrailingSlashes b.
Proof.
  induction b as [|c b IH].
  - change ("" +:+ slashes n) with (slashes n).
    induction n as [|n IHn]; simpl; [reflexivity | now rewrite IHn].
  - change (String c b +:+ slashes n) with (String c (b +:+ slashes n)).
    simpl. now rewrite IH.
Qed.

Lemma dropLeadingSlashes_slashes (m : nat) (k : string) :
  Js.dropLeadingSlashes (slashes m +:+ k) = Js.dropLeadingSlashes k.
Proof. induction m as [|m IH]; [reflexivity | exact IH]. Qed.

Lemma trailing_slashes (s : string) :
  ∃ n, s = Js.dropTrailingSlashes s +:+ slashes n.
Proof.
  induction s as [|c s [n IH]]; [now exists 0%nat|]. simpl.
  destruct (Js.dropTrailingSlashes s) as [|d t] eqn:E.
  - change ("" +:+ slashes n) with (slashes n) in IH.
    unfold Js.is_slash. destruct (bool_decide_reflect (c = "/"%char)) as [->|Hc].
    + exists (S n). now rewrite IH at 1.
    + exists n. now rewrite IH at 1.
  - exists n. change (String c (String d t) +:+ slashes n)
      with (String c (String d t +:+ slashes n)). now rewrite <- IH.
Qed.

Lemma leading_slashes (s : string) :
  ∃ m, s = slashes m +:+ Js.dropLeadingSlashes s.
Proof.
  induction s as [|c s [m IH]]; [now exists 0%nat|]. simpl.
  unfold Js.is_slash. destruct (bool_decide_reflect (c = "/"%char)) as [->|Hc].
  - exists (S m). change (slashes (S m) +:+ Js.dropLeadingSlashes s)
      with (String "/"%char (slashes m +:+ Js.dropLeadingSlashes s)). now rewrite <- IH.
  - now exists 0%nat.
Qed.

(** X2. [buildPublicUrl] joins base and key with exactly one slash.  A base
    is a text [b] that does not end in a slash followed by some slashes, a
    key is some slashes followed by a text [k] that does not start with
    one, and the URL of such a base and key is [b], one slash, [k]: the
    slashes at the joint are dropped, and nothing else of base or key is
    changed. *)
Theorem public_url_join :
  (∀ base, ∃ b n, base = b +:+ slashes n ∧ lastChar b ≠ Some "/"%char)
  ∧ (∀ key, ∃ m k, key = slashes m +:+ k ∧ firstChar k ≠ Some "/"%char)
  ∧ (∀ b k n m,
       lastChar b ≠ Some "/"%char →
       firstChar k ≠ Some "/"%char →
       buildPublicUrl (b +:+ slashes n) (slashes m +:+ k) = b +:+ "/" +:+ k).
Proof.
  split; [|split].
  - intros base. destruct (trailing_slashes base) as [n Hn].
    exists (Js.dropTrailingSlashes base), n.
    split; [exact Hn | apply dropTrailingSlashes_last].
  - intros key. destruct (leading_slashes key) as [m Hm].
    exists m, (Js.dropLeadingSlashes key).
    split; [exact Hm | apply dropLeadingSlashes_first].
  - intros b k n m Hb Hk. unfold buildPublicUrl, trimTrailingSlash.
    rewrite dropTrailingSlashes_slashes, dropLeadingSlashes_slashes.
    now rewrite (dropTrailingSlashes_id b Hb), (dropLeadingSlashes_id k Hk).
Qed.

Lemma public_url_join_witness :
  buildPublicUrl "https://cdn.example.com//" "/pets/cat.gif"
  = "https://cdn.example.com/pets/cat.gif".
Proof.
  destruct public_url_join as (_ & _ & Hjoin).
  apply (Hjoin "https://cdn.example.com" "pets/cat.gif" 2%nat 1%nat); discriminate.
Defined.

(** X3. [normalizeKey] leaves no backslash.  On a key without backslashes
    its result does not start with a slash and a second pass changes
    nothing; a key whose first character after the leading slashes is a
    backslash comes out with a leading slash. *)
Theorem normalize_key (key : string) :
  noBackslash (normalizeKey key) = true
  ∧ (noBackslash key = true →
       firstChar (normalizeKey key) ≠ Some "/"%char
       ∧ normalizeKey (normalizeKey key) = normalizeKey key)
  ∧ (∀ rest, Js.dropLeadingSlashes key = String "\"%char rest →
       normalizeKey key = String "/"%char (Js.backslashesToSlashes rest)).
Proof.
  unfold normalizeKey. split; [apply noBackslash_backslashesToSlashes|]. split.
  - intros Hb.
    assert (noBackslash (Js.dropLeadingSlashes key) = true) as Hb'.
    { clear -Hb. induction key as [|c key IH]; simpl in *; [reflexivity|].
      apply andb_prop in Hb as [Hc Hk].
      destruct (Js.is_slash c); [now apply IH | simpl; now rewrite Hc, Hk]. }
    rewrite (backslashesToSlashes_id _ Hb').
    split; [apply dropLeadingSlashes_first|].
    rewrite (dropLeadingSlashes_id _ (dropLeadingSlashes_first key)).
    now apply backslashesToSlashes_id.
  - intros rest ->. reflexivity.
Qed.

Lemma normalize_key_witness :
  normalizeKey "//pets/cat.gif" = "pets/cat.gif"
  ∧ normalizeKey "/\cat.gif" = "/cat.gif".
Proof.
  destruct (normalize_key "/\cat.gif") as (_ & _ & Hback).
  split; [reflexivity|]. apply (Hback "cat.gif"). reflexivity.
Defined.

(** ** The constructor *)

(** X4. [new Image2UrlClient(config)] throws exactly when one of the five
    required fields is empty, and names the first empty one in the order
    [bucket], [publicUrl], [accountId], [accessKeyId], [secretAccessKey];
    the optional fields never make it throw. *)
Theorem constructor_required (config : Config.t) :
  match firstMissing (requiredFields config) with
  | Some field =>
      newClient config = Throw (MissingConfig field)
      ∧ message (MissingConfig field)
        = "Missing " +:+ field +:+ " in Image2Url configuration."
  | None => ∃ c, newClient config = Ok c
  end.
Proof.
  unfold newClient, requireValue, requiredFields, firstMissing.
  destruct (Js.truthy (Config.bucket config)); [|split; reflexivity].
  destruct (Js.truthy (Config.publicUrl config)); [|split; reflexivity].
  destruct (Js.truthy (Config.accountId config)); [|split; reflexivity].
  destruct (Js.truthy (Config.accessKeyId config)); [|split; reflexivity].
  destruct (Js.truthy (Config.secretAccessKey config)); [|split; reflexivity].
  eauto.
Qed.

(** X5. A client that was constructed holds a public URL without a slash at
    its end and a prefix without a slash at either end; a configured URL
    or prefix that has no such slashes is stored as it is. *)
Theorem client_invariant (config : Config.t) (c : Client.t) :
  newClient config = Ok c →
  lastChar (Client.publicUrl c) ≠ Some "/"%char
  ∧ firstChar (Client.prefix c) ≠ Some "/"%char
  ∧ lastChar (Client.prefix c) ≠ Some "/"%char
  ∧ (lastChar (Config.publicUrl config) ≠ Some "/"%char →
       Client.publicUrl c = Config.publicUrl config)
  ∧ (∀ p, Config.keyPrefix config = Some p →
       firstChar p ≠ Some "/"%char → lastChar p ≠ Some "/"%char →
       Client.prefix c = p)
  ∧ (Config.keyPrefix config = None → Client.prefix c = "images").
Proof.
  intros Hnew. apply newClient_fields in Hnew as (_ & -> & -> & _).
  unfold trimSlashes. split; [apply dropTrailingSlashes_last|].
  split; [apply dropTrailingSlashes_first, dropLeadingSlashes_first|].
  split; [apply dropTrailingSlashes_last|].
  split; [apply dropTrailingSlashes_id|]. split.
  - intros p -> Hf Hl. simpl. now rewrite dropLeadingSlashes_id, dropTrailingSlashes_id.
  - intros ->. reflexivity.
Qed.

Lemma client_invariant_witness :
  Client.publicUrl Sample.client = "https://cdn.example.com"
  ∧ Client.prefix Sample.client = "images".
Proof.
  destruct (client_invariant Sample.config Sample.client sample_client)
    as (_ & _ & _ & _ & _ & Hprefix).
  split; [reflexivity | apply Hprefix; reflexivity].
Defined.

(** ** The two tables *)

(** X6. The two tables agree: the extension [EXT_BY_MIME] gives for a MIME
    type is mapped back to that type by [MIME_BY_EXT], so a name
    [upload.<ext>] made from a known MIME type is guessed to have that type
    and extension again; and every type [MIME_BY_EXT] gives is an image
    type with an entry in [EXT_BY_MIME]. *)
Theorem tables_agree :
  (∀ mime ext, EXT_BY_MIME !! mime = Some ext →
     MIME_BY_EXT !! String "."%char ext = Some mime
     ∧ guessContentType (Some ("upload." +:+ ext)) = Some mime
     ∧ ∀ other, guessExtension (Some ("upload." +:+ ext)) other = Some ext)
  ∧ (∀ ext mime, MIME_BY_EXT !! ext = Some mime →
       Js.startsWith "image/" mime = true ∧ is_Some (EXT_BY_MIME !! mime)).
Proof.
  split.
  - intros mime ext H. apply elem_of_list_to_map_2 in H.
    repeat (apply elem_of_cons in H as [[= -> ->]|H];
            [split; [|split]; [vm_compute; reflexivity .. | intros other; reflexivity]|]).
    now apply elem_of_nil in H.
  - intros ext mime H. apply elem_of_list_to_map_2 in H.
    repeat (apply elem_of_cons in H as [[= -> ->]|H];
            [split; [reflexivity | vm_compute; eauto]|]).
    now apply elem_of_nil in H.
Qed.

Lemma tables_agree_witness :
  guessContentType (Some "upload.svg") = Some "image/svg+xml"
  ∧ is_Some (EXT_BY_MIME !! "image/tiff").
Proof.
  destruct tables_agree as [Hfwd Hback].
  split.
  - apply (Hfwd "image/svg+xml" "svg"). vm_compute. reflexivity.
  - apply (Hback ".tif" "image/tiff"). vm_compute. reflexivity.
Defined.

(** ** Data URIs *)

Lemma stripPrefix_Some (p s r : string) :
  stripPrefix p s = Some r ↔ s = p +:+ r.
Proof.
  revert s. induction p as [|a p IH]; intros s; simpl.
  - split; [now intros [= ->] | now intros ->].
  - destruct s as [|b s]; [split; discriminate|].
    change (String a p +:+ r) with (String a (p +:+ r)).
    destruct (bool_decide_reflect (a = b)) as [->|Hab].
    + rewrite IH. split; [now intros -> | now intros [= ->]].
    + split; [discriminate | intros [= ? ?]; congruence].
Qed.

Lemma splitAtSemicolon_Some (s a b : string) :
  splitAtSemicolon s = Some (a, b) ↔ s = a +:+ ";" +:+ b ∧ hasChar ";"%char a = false.
Proof.
  revert a b. induction s as [|c s IH]; intros a b; simpl.
  - split; [discriminate|]. intros [H _]. destruct a; discriminate.
  - destruct (bool_decide_reflect (c = ";"%char)) as [->|Hc].
    + split.
      * intros [= <- <-]. split; reflexivity.
      * intros [H Hno]. destruct a as [|d a]; [now inversion H|].
        change (String d a +:+ ";" +:+ b) with (String d (a +:+ ";" +:+ b)) in H.
        inversion H; subst. simpl in Hno. discriminate Hno.
    + remember (splitAtSemicolon s) as found eqn:E in |- *. symmetry in E.
      destruct found as [[a' b']|].
      * apply IH in E as [-> Hno']. split.
        -- intros [= <- <-]. split; [reflexivity|]. simpl. rewrite Hno'.
           rewrite bool_decide_eq_false_2 by congruence. reflexivity.
        -- intros [H Hno]. destruct a as [|d a]; [inversion H; congruence|].
           change (String d a +:+ ";" +:+ b) with (String d (a +:+ ";" +:+ b)) in H.
           inversion H as [[Hd Hs]]. simpl in Hno. apply orb_false_elim in Hno as [_ Hno].
           assert (splitAtSemicolon (a' +:+ ";" +:+ b') = Some (a, b)) as E1
             by (apply IH; auto).
           assert (splitAtSemicolon (a' +:+ ";" +:+ b') = Some (a', b')) as E2
             by (apply IH; auto).
           rewrite E1 in E2. now inversion E2.
      * split; [discriminate|]. intros [H Hno].
        destruct a as [|d a]; [inversion H; congruence|].
        change (String d a +:+ ";" +:+ b) with (String d (a +:+ ";" +:+ b)) in H.
        inversion H as [[Hd Hs]]. simpl in Hno. apply orb_false_elim in Hno as [_ Hno].
        assert (splitAtSemicolon s = Some (a, b)) as E' by (apply IH; auto).
        rewrite E' in E. discriminate.
Qed.

(** X7. What [/^data:([^;]+);base64,(.+)$/] accepts: a text matches with
    MIME part [mime] and payload [encoded] exactly when it is
    [data:<mime>;base64,<encoded>], [mime] is not empty and holds no
    semicolon, and [encoded] is not empty and holds no line terminator. *)
Theorem data_uri_match (value mime encoded : string) :
  matchDataUri value = Some (mime, encoded)
  ↔ value = "data:" +:+ mime +:+ ";base64," +:+ encoded
    ∧ mime ≠ "" ∧ hasChar ";"%char mime = false
    ∧ encoded ≠ "" ∧ hasLineTerminator encoded = false.
Proof.
  unfold matchDataUri. split.
  - destruct (stripPrefix "data:" value) as [r|] eqn:E1; [|discriminate].
    destruct (splitAtSemicolon r) as [[m r']|] eqn:E2; [|discriminate].
    destruct (stripPrefix "base64," r') as [enc|] eqn:E3; [|discriminate].
    destruct (Js.truthy m) eqn:Hm; [|discriminate].
    destruct (Js.truthy enc) eqn:He; [|discriminate].
    destruct (hasLineTerminator enc) eqn:Hl; [discriminate|].
    intros [= <- <-].
    apply stripPrefix_Some in E1 as ->. apply splitAtSemicolon_Some in E2 as [-> Hno].
    apply stripPrefix_Some in E3 as ->.
    split; [reflexivity|]. split; [now apply truthy_true|]. split; [exact Hno|].
    split; [now apply truthy_true | exact Hl].
  - intros (-> & Hm & Hno & He & Hl).
    assert (stripPrefix "data:" ("data:" +:+ mime +:+ ";base64," +:+ encoded)
            = Some (mime +:+ ";base64," +:+ encoded)) as ->
      by now apply stripPrefix_Some.
    assert (splitAtSemicolon (mime +:+ ";base64," +:+ encoded)
            = Some (mime, "base64," +:+ encoded)) as ->
      by (apply splitAtSemicolon_Some; split; [reflexivity | exact Hno]).
    assert (stripPrefix "base64," ("base64," +:+ encoded) = Some encoded) as ->
      by now apply stripPrefix_Some.
    apply truthy_true in Hm, He. now rewrite Hm, He, Hl.
Qed.

Lemma data_uri_match_witness :
  matchDataUri "data:image/png;base64,QUJD" = Some ("image/png", "QUJD").
Proof.
  apply (data_uri_match "data:image/png;base64,QUJD" "image/png" "QUJD").
  repeat split; discriminate.
Defined.

(** ** Base64 input, continued *)

Lemma trimStart_blank (ws : string) : Js.trim ws = "" → Js.trimStart ws = "".
Proof.
  unfold Js.trim. induction ws as [|c ws IH]; simpl; [reflexivity|].
  destruct (Js.is_white c) eqn:Hc; [exact IH|].
  simpl. rewrite Hc. destruct (Js.trimEnd ws); discriminate.
Qed.

Lemma trimEnd_blank (ws : string) : Js.trimStart ws = "" → Js.trimEnd ws = "".
Proof.
  induction ws as [|c ws IH]; simpl; [reflexivity|].
  destruct (Js.is_white c) eqn:Hc; [|discriminate].
  intros H. now rewrite (IH H).
Qed.

Lemma trimStart_app_blank (ws s : string) :
  Js.trimStart ws = "" → Js.trimStart (ws +:+ s) = Js.trimStart s.
Proof.
  induction ws as [|c ws IH]; [reflexivity|].
  change (String c ws +:+ s) with (String c (ws +:+ s)). simpl.
  destruct (Js.is_white c); [exact IH | discriminate].
Qed.

Lemma trimEnd_app_blank (s ws : string) :
  Js.trimStart ws = "" → Js.trimEnd (s +:+ ws) = Js.trimEnd s.
Proof.
  intros H. induction s as [|c s IH].
  - change ("" +:+ ws) with ws. now apply trimEnd_blank.
  - change (String c s +:+ ws) with (String c (s +:+ ws)). simpl. now rewrite IH.
Qed.

Lemma trim_app_blank (s ws : string) :
  Js.trimStart ws = "" → Js.trim (s +:+ ws) = Js.trim s.
Proof.
  intros H. unfold Js.trim. induction s as [|c s IH].
  - change ("" +:+ ws) with ws. now rewrite H.
  - change (String c s +:+ ws) with (String c (s +:+ ws)). simpl.
    destruct (Js.is_white c); [exact IH|].
    change (String c (s +:+ ws)) with (String c s +:+ ws).
    now apply trimEnd_app_blank.
Qed.

(** X8. White space around the input of [uploadBase64] is ignored: text
    that is blank (trimmed to nothing) before and after the input changes
    neither what [decodeBase64] returns nor what [uploadBase64] does. *)
Theorem base64_surrounding_space (c : Client.t) (w : World) (o : Options.t)
    (before input after : string) :
  Js.trim before = "" →
  Js.trim after = "" →
  decodeBase64 (before +:+ input +:+ after) = decodeBase64 input
  ∧ uploadBase64 c w (before +:+ input +:+ after) o = uploadBase64 c w input o.
Proof.
  intros Hb%trimStart_blank Ha%trimStart_blank.
  assert (Js.trim (before +:+ input +:+ after) = Js.trim input) as Htrim.
  { unfold Js.trim at 1. rewrite (trimStart_app_blank _ _ Hb).
    now apply trim_app_blank. }
  assert (decodeBase64 (before +:+ input +:+ after) = decodeBase64 input) as Hdec
    by (unfold decodeBase64; now rewrite Htrim).
  split; [exact Hdec|].
  unfold uploadBase64. now rewrite Hdec.
Qed.

Lemma base64_surrounding_space_witness :
  decodeBase64 ("  " +:+ "data:image/png;base64,QUJD" +:+ String "010"%char "")
  = decodeBase64 "data:image/png;base64,QUJD".
Proof.
  apply (base64_surrounding_space Sample.client Sample.world Options.none
           "  " "data:image/png;base64,QUJD" (String "010"%char "")); reflexivity.
Defined.

(** X9. The content type of a base64 upload.  For a data URI it is the
    caller's [contentType] or else the MIME part of the URI, whatever the
    filename says, so a data URI of another kind than [image/] is turned
    away unless the caller overrides the type; for bare base64 it is
    resolved as [uploadBuffer] resolves it from the caller's options. *)
Theorem base64_content_type (c : Client.t) (w : World) (base64 : string)
    (o : Options.t) :
  (∀ mime encoded,
     matchDataUri (Js.trim base64) = Some (mime, encoded) →
     buffer (decodeBase64 base64) = NodeBuffer.fromBase64 encoded
     ∧ resolvedContentType (base64Options base64 o)
       = default mime (Options.contentType o)
     ∧ (Options.contentType o = None →
        Js.startsWith "image/" mime = false →
        ∀ r, ∃ e, is_validation e = true
                  ∧ uploadBase64 c w base64 o r = (Throw e, r)))
  ∧ (matchDataUri (Js.trim base64) = None →
     buffer (decodeBase64 base64) = NodeBuffer.fromBase64 (Js.trim base64)
     ∧ resolvedContentType (base64Options base64 o) = resolvedContentType o).
Proof.
  split.
  - intros mime encoded Hm.
    assert (resolvedContentType (base64Options base64 o)
            = default mime (Options.contentType o)) as Hres.
    { unfold resolvedContentType, base64Options, decodeBase64; simpl. rewrite Hm.
      destruct (Options.contentType o); reflexivity. }
    split; [unfold decodeBase64; now rewrite Hm|]. split; [exact Hres|].
    intros Hct Hno r. rewrite uploadBase64_run.
    destruct (uploadBuffer_gate c w (OfBuffer (buffer (decodeBase64 base64)))
                (base64Options base64 o) r) as [Hgate _].
    apply Hgate. now rewrite Hres, Hct.
  - intros Hm. unfold resolvedContentType, base64Options, decodeBase64; simpl.
    rewrite Hm; simpl. split; [reflexivity|].
    destruct (Options.contentType o); [reflexivity|].
    destruct (Options.originalName o); reflexivity.
Qed.

Lemma base64_content_type_witness :
  uploadBase64 Sample.client Sample.world "data:text/plain;base64,QUJD"
    (Sample.named "cat.png") emptyRemote
  = (Throw (NotImage "text/plain"), emptyRemote).
Proof.
  destruct (base64_content_type Sample.client Sample.world
              "data:text/plain;base64,QUJD" (Sample.named "cat.png")) as [Huri _].
  destruct (Huri "text/plain" "QUJD" eq_refl) as (_ & _ & Hreject).
  destruct (Hreject eq_refl eq_refl emptyRemote) as (e & _ & Hrun).
  rewrite Hrun. assert (e = NotImage "text/plain") as ->; [|reflexivity].
  assert ((uploadBase64 Sample.client Sample.world "data:text/plain;base64,QUJD"
             (Sample.named "cat.png") emptyRemote).1 = Throw (NotImage "text/plain"))
    as Hfst by reflexivity.
  rewrite Hrun in Hfst. simpl in Hfst. now inversion Hfst.
Defined.

(** ** Uploads without a content type *)

Lemma ensure_Throw_prefix (s : string) (e : Error) :
  ensureImageContentType s = Throw e → Js.startsWith "image/" s = false.
Proof.
  intros H. destruct (Js.startsWith "image/" s) eqn:E; [|reflexivity].
  rewrite (ensure_image s E) in H. discriminate.
Qed.

Lemma uploadBuffer_type_error (c : Client.t) (w : World) (data : BinaryData)
    (o : Options.t) (r r' : Remote) (e : Error) :
  uploadBuffer c w data o r = (Throw e, r') →
  e = NoContentType ∨ (∃ ct, e = NotImage ct) →
  Js.startsWith "image/" (resolvedContentType o) = false.
Proof.
  rewrite uploadBuffer_run. destruct (stage c data o) as [| |e0|] eqn:Hst.
  - intros [= <- _] [?|[? ?]]; discriminate.
  - intros [= <- _] [?|[? ?]]; discriminate.
  - intros [= <- _] _. apply stage_type_inv in Hst as (_ & _ & He).
    now apply ensure_Throw_prefix in He.
  - destruct (s3_send w _); [discriminate|]. intros [= <- _] [?|[? ?]]; discriminate.
Qed.

Lemma resolved_untyped (o : Options.t) :
  Options.contentType o = None →
  Js.startsWith "image/" (resolvedContentType o) = true.
Proof.
  intros H. unfold resolvedContentType. rewrite H.
  destruct (guessContentType (Options.originalName o)) as [mime|] eqn:E;
    [now apply guessContentType_image in E | reflexivity].
Qed.

Lemma resolved_file (filePath : string) (o : Options.t) :
  Options.contentType o = None →
  resolvedContentType (fileOptions filePath o)
  = default "image/jpeg"
      (MIME_BY_EXT !! Js.toLowerCase
         (NodePath.extname (default (NodePath.basename filePath) (Options.originalName o)))).
Proof.
  intros H. unfold resolvedContentType, fileOptions; simpl. rewrite H.
  set (name := default (NodePath.basename filePath) (Options.originalName o)).
  unfold guessContentType. destruct (Js.truthy name) eqn:Hn.
  - destruct (MIME_BY_EXT !! Js.toLowerCase (NodePath.extname name)); reflexivity.
  - apply truthy_false in Hn. rewrite Hn. reflexivity.
Qed.

(** X10. The image-only rule bears on a supplied content type only.  When
    the caller gives no [contentType], the resolved type of [uploadBuffer]
    and of [uploadFile] always begins with [image/] (the table has image
    types only, and [image/jpeg] is the fallback), so neither throws a
    content-type error, whatever the name or the extension of the file. *)
Theorem untyped_upload (c : Client.t) (w : World) (data : BinaryData)
    (o : Options.t) (filePath : string) (r r' : Remote) (e : Error) :
  Options.contentType o = None →
  Js.startsWith "image/" (resolvedContentType o) = true
  ∧ Js.startsWith "image/" (resolvedContentType (fileOptions filePath o)) = true
  ∧ (uploadBuffer c w data o r = (Throw e, r')
     ∨ uploadFile c w filePath o r = (Throw e, r') →
     e ≠ NoContentType ∧ ∀ ct, e ≠ NotImage ct).
Proof.
  intros Hct.
  assert (Js.startsWith "image/" (resolvedContentType (fileOptions filePath o)) = true)
    as Hfile.
  { rewrite (resolved_file filePath o Hct).
    destruct (MIME_BY_EXT !! _) as [mime|] eqn:E;
      [now apply MIME_BY_EXT_image in E | reflexivity]. }
  split; [now apply resolved_untyped|]. split; [exact Hfile|].
  intros [Hrun | Hrun].
  - pose proof (uploadBuffer_type_error c w data o r r' e Hrun) as Hno.
    rewrite (resolved_untyped o Hct) in Hno.
    split; [intros -> | intros ct ->]; (discriminate Hno; eauto).
  - unfold uploadFile in Hrun.
    destruct (fs_stat w filePath) as [reason|[|]]; simpl in Hrun;
      [inversion Hrun; split; [discriminate | intros; discriminate] | |
       inversion Hrun; split; [discriminate | intros; discriminate]].
    destruct (fs_readFile w filePath) as [reason|bytes];
      [inversion Hrun; split; [discriminate | intros; discriminate]|].
    pose proof (uploadBuffer_type_error c w _ _ r r' e Hrun) as Hno.
    change (resolvedContentType _) with (resolvedContentType (fileOptions filePath o)) in Hno.
    rewrite Hfile in Hno.
    split; [intros -> | intros ct ->]; (discriminate Hno; eauto).
Qed.

(** A file named [notes.txt] goes out as [image/jpeg]. *)
Lemma untyped_upload_witness :
  Js.startsWith "image/" (resolvedContentType (fileOptions "/home/me/notes.txt" Options.none))
  = true
  ∧ resolvedContentType (fileOptions "/home/me/notes.txt" Options.none) = "image/jpeg".
Proof.
  destruct (untyped_upload Sample.client Sample.world Sample.gif Options.none
              "/home/me/notes.txt" emptyRemote emptyRemote EmptyFile eq_refl)
    as (_ & Hfile & _).
  split; [exact Hfile | vm_compute; reflexivity].
Defined.

(** ** What is sent *)

Lemma stage_send_inv (c : Client.t) (data : BinaryData) (o : Options.t) :
  stage c data o = AtSend →
  length (toBuffer data) ≠ 0%nat
  ∧ Z.of_nat (length (toBuffer data)) ≤ Client.maxSize c
  ∧ Js.startsWith "image/" (resolvedContentType o) = true.
Proof.
  unfold stage.
  destruct (Z.eqb_spec (Z.of_nat (length (toBuffer data))) 0); [discriminate|].
  destruct (Z.gtb_spec (Z.of_nat (length (toBuffer data))) (Client.maxSize c));
    [discriminate|].
  destruct (ensureImageContentType (resolvedContentType o)) as [ct|e] eqn:E;
    [|discriminate].
  intros _. apply ensure_Ok in E as [_ E]. repeat split; [lia | lia | exact E].
Qed.

Lemma app_one_neq {A} (l : list A) (x : A) : l ++ [x] ≠ l.
Proof.
  intros H. apply (f_equal length) in H. rewrite length_app in H. simpl in H. lia.
Qed.

(** An upload that sent something was at the send stage, and sent
    [uploadCommand]. *)
Lemma uploadBuffer_sent_inv (c : Client.t) (w : World) (data : BinaryData)
    (o : Options.t) (r : Remote) :
  sent (uploadBuffer c w data o r).2 ≠ sent r →
  stage c data o = AtSend
  ∧ sent (uploadBuffer c w data o r).2 = sent r ++ [uploadCommand c w data o].
Proof.
  rewrite uploadBuffer_run.
  destruct (stage c data o); simpl; try congruence.
  intros _. split; [reflexivity|]. destruct (s3_send w _); reflexivity.
Qed.

(** X11. [uploadBuffer] neither catches nor wraps the failure of
    [client.send]: when the buffer passes the three checks and the call is
    rejected, [uploadBuffer] throws that very error and returns no result;
    and every error of [uploadBuffer] other than its four validation errors
    is such a rejection of the command it built.  (What the SDK client does
    inside one [client.send] is not part of the module.) *)
Theorem send_failure (c : Client.t) (w : World) (data : BinaryData)
    (o : Options.t) (r : Remote) :
  (∀ reason,
     toBuffer data ≠ [] →
     Z.of_nat (length (toBuffer data)) ≤ Client.maxSize c →
     Js.startsWith "image/" (resolvedContentType o) = true →
     s3_send w (uploadCommand c w data o) = Rejected reason →
     (uploadBuffer c w data o r).1 = Throw (SendFailure reason)
     ∧ message (SendFailure reason) = reason)
  ∧ (∀ e, (uploadBuffer c w data o r).1 = Throw e →
          is_validation e = false →
          ∃ reason, e = SendFailure reason
                    ∧ s3_send w (uploadCommand c w data o) = Rejected reason
                    ∧ toBuffer data ≠ []
                    ∧ Z.of_nat (length (toBuffer data)) ≤ Client.maxSize c
                    ∧ Js.startsWith "image/" (resolvedContentType o) = true).
Proof.
  split.
  - intros reason Hne Hle Himg Hsend.
    assert (length (toBuffer data) ≠ 0%nat) as Hlen
      by (destruct (toBuffer data); [congruence | discriminate]).
    rewrite uploadBuffer_run, (stage_send c data o Hlen Hle Himg), Hsend.
    split; reflexivity.
  - intros e. rewrite uploadBuffer_run.
    destruct (stage c data o) as [| |e0|] eqn:Hst; simpl.
    + intros [= <-]. discriminate.
    + intros [= <-]. discriminate.
    + intros [= <-] Hval. apply stage_type_inv in Hst as (_ & _ & He).
      apply ensure_Throw in He as [[-> _] | [-> _]]; discriminate.
    + apply stage_send_inv in Hst as (Hlen & Hle & Himg).
      destruct (s3_send w (uploadCommand c w data o)) as [tag|reason] eqn:Hsend;
        simpl; [discriminate|].
      intros [= <-] _. exists reason. split; [reflexivity|]. split; [reflexivity|].
      split; [|split; assumption].
      intros Hnil. now rewrite Hnil in Hlen.
Qed.

Lemma send_failure_witness :
  (uploadBuffer Sample.client
     {| Date_now := 0; randomUUID := "u"; toISOString := "t";
        fs_stat := λ _, inl "EACCES"; fs_readFile := λ _, inl "EACCES";
        s3_send := λ _, Rejected "503 Slow Down" |}
     Sample.gif Options.none emptyRemote).1 = Throw (SendFailure "503 Slow Down").
Proof.
  set (w := {| Date_now := 0; randomUUID := "u"; toISOString := "t";
               fs_stat := λ _, inl "EACCES"; fs_readFile := λ _, inl "EACCES";
               s3_send := λ _, Rejected "503 Slow Down" |}).
  destruct (send_failure Sample.client w Sample.gif Options.none emptyRemote)
    as [Hfail _].
  apply (Hfail "503 Slow Down"); [discriminate | simpl; lia | reflexivity | reflexivity].
Defined.

(** X12. Every command [uploadBuffer] sends carries a body that is not
    empty and not longer than the ceiling, a [ContentLength] equal to the
    length of the body, a content type that begins with [image/], the
    bucket and the cache-control of the client, and an [upload-time]
    entry. *)
Theorem sent_command (c : Client.t) (w : World) (data : BinaryData)
    (o : Options.t) (r : Remote) (cmd : Put.t) :
  sent (uploadBuffer c w data o r).2 = sent r ++ [cmd] →
  Put.Body cmd ≠ []
  ∧ Put.ContentLength cmd = Z.of_nat (length (Put.Body cmd))
  ∧ Put.ContentLength cmd ≤ Client.maxSize c
  ∧ Js.startsWith "image/" (Put.ContentType cmd) = true
  ∧ Put.Bucket cmd = Client.bucket c
  ∧ Put.CacheControl cmd = Client.cacheControl c
  ∧ Put.Metadata cmd !! "upload-time" = Some (toISOString w).
Proof.
  intros Hsent.
  destruct (uploadBuffer_sent_inv c w data o r) as [Hst Hcmd].
  { rewrite Hsent. apply app_one_neq. }
  rewrite Hcmd in Hsent. apply app_inj_tail in Hsent as [_ <-].
  apply stage_send_inv in Hst as (Hne & Hle & Himg).
  split; [simpl; destruct (toBuffer data); [contradiction | discriminate]|].
  repeat split; try assumption. apply buildMetadata_upload_time.
Qed.

Lemma sent_command_witness :
  ∃ cmd,
    sent (uploadBuffer Sample.client Sample.world Sample.gif Options.none emptyRemote).2
    = [cmd]
    ∧ Put.ContentLength cmd = 3.
Proof.
  assert (∃ cmd,
            sent (uploadBuffer Sample.client Sample.world Sample.gif Options.none
                    emptyRemote).2 = sent emptyRemote ++ [cmd]
            ∧ Put.Body cmd = ["G"; "I"; "F"]%byte) as (cmd & Hsent & Hbody).
  { eexists. rewrite uploadBuffer_run. simpl. split; reflexivity. }
  destruct (sent_command Sample.client Sample.world Sample.gif Options.none emptyRemote
              cmd Hsent) as (_ & Hlen & _).
  exists cmd. split; [exact Hsent|]. rewrite Hlen, Hbody. reflexivity.
Defined.

(** ** Files *)

(** X13. [uploadFile] sends something only for a path that [fs.stat]
    reports as a regular file and [fs.readFile] can read, and what it
    sends is the bytes read.  A failing [fs.stat] or [fs.readFile] is
    thrown as it is, a path that is not a regular file gives
    'Path is not a file: <path>'; in these cases nothing is sent. *)
Theorem upload_file_reads (c : Client.t) (w : World) (filePath : string)
    (o : Options.t) (r : Remote) :
  (sent (uploadFile c w filePath o r).2 ≠ sent r →
     fs_stat w filePath = inr true
     ∧ ∃ bytes cmd, fs_readFile w filePath = inr bytes
                    ∧ sent (uploadFile c w filePath o r).2 = sent r ++ [cmd]
                    ∧ Put.Body cmd = bytes)
  ∧ (∀ reason, fs_stat w filePath = inl reason →
       uploadFile c w filePath o r = (Throw (FsFailure reason), r))
  ∧ (fs_stat w filePath = inr false →
       uploadFile c w filePath o r = (Throw (NotAFile filePath), r)
       ∧ message (NotAFile filePath) = "Path is not a file: " +:+ filePath)
  ∧ (∀ reason, fs_stat w filePath = inr true →
       fs_readFile w filePath = inl reason →
       uploadFile c w filePath o r = (Throw (FsFailure reason), r)).
Proof.
  unfold uploadFile. split; [|split; [|split]].
  - destruct (fs_stat w filePath) as [reason|[|]]; simpl; try congruence.
    destruct (fs_readFile w filePath) as [reason|bytes]; simpl; [congruence|].
    intros Hsent. split; [reflexivity|].
    apply uploadBuffer_sent_inv in Hsent as [_ Hcmd].
    eexists bytes, _. split; [reflexivity|]. split; [exact Hcmd | reflexivity].
  - intros reason ->. reflexivity.
  - intros ->. split; reflexivity.
  - intros reason -> ->. reflexivity.
Qed.

Lemma upload_file_reads_witness :
  uploadFile Sample.client Sample.world "/tmp/missing.png" Options.none emptyRemote
  = (Throw (FsFailure "ENOENT: no such file or directory, stat '/tmp/missing.png'"),
     emptyRemote).
Proof.
  destruct (upload_file_reads Sample.client Sample.world "/tmp/missing.png"
              Options.none emptyRemote) as (_ & Hstat & _).
  apply Hstat. reflexivity.
Defined.

(** X14. A file uploaded without [originalName] goes under the base name
    of its path: that name is the [original-name] entry of the metadata,
    and when no [contentType] is given either, the type of the upload is
    the table's entry for the extension of that name, or [image/jpeg].  A
    supplied [originalName] takes the place of the base name in both. *)
Theorem upload_file_name (c : Client.t) (w : World) (filePath : string)
    (o : Options.t) (bytes : list byte) (r r' : Remote) (res : Uploaded.t) :
  fs_stat w filePath = inr true →
  fs_readFile w filePath = inr bytes →
  uploadFile c w filePath o r = (Ok res, r') →
  ∃ cmd,
    sent r' = sent r ++ [cmd]
    ∧ (default (NodePath.basename filePath) (Options.originalName o) ≠ "" →
         Put.Metadata cmd !! "original-name"
         = Some (default (NodePath.basename filePath) (Options.originalName o)))
    ∧ (Options.contentType o = None →
         Uploaded.type res
         = default "image/jpeg"
             (MIME_BY_EXT !! Js.toLowerCase
                (NodePath.extname
                   (default (NodePath.basename filePath) (Options.originalName o))))
         ∧ Put.ContentType cmd = Uploaded.type res).
Proof.
  intros Hs Hr Hrun. rewrite (uploadFile_run c w filePath o bytes Hs Hr) in Hrun.
  apply uploadBuffer_Ok in Hrun as (tag & _ & -> & -> & _).
  eexists. split; [reflexivity|]. split.
  - intros Hne. now apply buildMetadata_original_name.
  - intros Hct. split; [|reflexivity]. apply (resolved_file filePath o Hct).
Qed.

Lemma upload_file_name_witness :
  NodePath.basename "/srv/in/Photo.JPG" = "Photo.JPG"
  ∧ ∃ cmd,
      sent (uploadFile Sample.client
              {| Date_now := 0; randomUUID := "u"; toISOString := "t";
                 fs_stat := λ _, inr true; fs_readFile := λ _, inr ["x"]%byte;
                 s3_send := λ _, Stored None |}
              "/srv/in/Photo.JPG" Options.none emptyRemote).2 = [cmd]
      ∧ Put.Metadata cmd !! "original-name" = Some "Photo.JPG"
      ∧ Put.ContentType cmd = "image/jpeg".
Proof.
  split; [reflexivity|].
  set (w := {| Date_now := 0; randomUUID := "u"; toISOString := "t";
               fs_stat := λ _, inr true; fs_readFile := λ _, inr ["x"]%byte;
               s3_send := λ _, Stored None |}).
  assert (∃ res r', uploadFile Sample.client w "/srv/in/Photo.JPG" Options.none emptyRemote
                    = (Ok res, r')) as (res & r' & Hrun).
  { eexists _, _. rewrite (uploadFile_run _ w _ _ ["x"]%byte eq_refl eq_refl).
    rewrite uploadBuffer_run. reflexivity. }
  destruct (upload_file_name Sample.client w "/srv/in/Photo.JPG" Options.none
              ["x"]%byte emptyRemote r' res eq_refl eq_refl Hrun)
    as (cmd & Hsent & Hname & Htype).
  exists cmd. rewrite Hrun. split; [exact Hsent|]. split.
  - apply Hname. discriminate.
  - destruct (Htype eq_refl) as [Hres ->]. rewrite Hres. vm_compute. reflexivity.
Defined.

(** ** The extension of a generated key *)

Section ExtnameClean.

Variable path : string.

Lemma extStep_clean (i : nat) (c : ascii) (st : NodePath.ExtScan) :
  String.get i path = Some c →
  (NodePath.matchedSlash st = true → NodePath.end_ st = -1) →
  scanInv path (S i) st →
  scanClean path (S i) st →
  match NodePath.extStep c (Z.of_nat i) st with
  | inl st' => scanDone path st'
  | inr st' =>
      (NodePath.matchedSlash st' = true → NodePath.end_ st' = -1)
      ∧ scanClean path i st'
  end.
Proof.
  intros Hget Hms [Hend Hdot] Hclean. unfold NodePath.extStep.
  destruct (Js.is_slash c) eqn:Hsl.
  - destruct (NodePath.matchedSlash st) eqn:Hm; simpl.
    + split; [intros _; exact (Hms eq_refl)|].
      intros j Hj1 Hj2. apply Hclean; [|exact Hj2].
      destruct (NodePath.startDot st =? -1); [|exact Hj1].
      rewrite (Hms eq_refl) in Hj2. lia.
    + intros Hsd j Hj1 Hj2. simpl in *. apply Hclean; [|exact Hj2].
      apply Z.eqb_neq in Hsd. rewrite Hsd. exact Hj1.
  - assert (c ≠ "/"%char) as Hns.
    { unfold Js.is_slash in Hsl. now apply bool_decide_eq_false in Hsl. }
    unfold scanClean in *.
    destruct (bool_decide_reflect (c = "."%char)) as [Hc|Hc];
      (destruct (Z.eqb_spec (NodePath.end_ st) (-1)) as [He|He]; simpl);
      (destruct (Z.eqb_spec (NodePath.startDot st) (-1)) as [Hs|Hs]; simpl);
      try (destruct (negb (NodePath.preDotState st =? 1)); simpl);
      (split; [intros Hm; solve [discriminate Hm | apply Hms in Hm; lia]|]);
      intros j Hj1 Hj2; simpl in *;
      try (replace (Z.of_nat i =? -1) with false in Hj1
             by (symmetry; apply Z.eqb_neq; lia));
      try (destruct (Z.eqb_spec (NodePath.startDot st) (-1)); [lia|]);
      try (destruct (Z.eqb_spec (NodePath.startDot st) (-1)); [|lia]);
      (destruct Hdot as [Hd|(Hd0 & Hd1 & Hd2)]; try lia);
      first [ lia
            | destruct (decide (j = i)) as [->|Hji];
              [first [lia | exists c; repeat split; assumption] | apply Hclean; lia]
            | apply Hclean; lia ].
Qed.

Lemma scanClean_done (n : nat) (st : NodePath.ExtScan) :
  scanClean path n st → scanDone path st.
Proof.
  intros H Hs j Hj1 Hj2. apply H; [|exact Hj2].
  apply Z.eqb_neq in Hs. now rewrite Hs.
Qed.

Lemma extLoop_clean (n : nat) : ∀ st,
  (NodePath.matchedSlash st = true → NodePath.end_ st = -1) →
  scanInv path n st →
  scanClean path n st →
  scanDone path (NodePath.extLoop path n st).
Proof.
  induction n as [|i IH]; intros st Hms Hinv Hclean; simpl.
  - now apply scanClean_done with 0%nat.
  - destruct (String.get i path) as [c|] eqn:Hget;
      [|now apply scanClean_done with (S i)].
    pose proof (extStep_inv path i c st Hget Hinv) as Hinv'.
    pose proof (extStep_clean i c st Hget Hms Hinv Hclean) as Hclean'.
    destruct (NodePath.extStep c (Z.of_nat i) st) as [st'|st']; [exact Hclean'|].
    destruct Hclean' as [Hms' Hclean']. now apply IH.
Qed.

End ExtnameClean.

Lemma substring_chars (s : string) : ∀ (n m : nat) (c : ascii),
  hasChar c (String.substring n m s) = true →
  ∃ j : nat, (n ≤ j < n + m)%nat ∧ String.get j s = Some c.
Proof.
  induction s as [|a s IH]; intros n m c H.
  - destruct n, m; discriminate.
  - destruct n as [|n].
    + destruct m as [|m]; [discriminate|]. simpl in H.
      apply orb_prop in H as [H|H].
      * apply bool_decide_eq_true in H as ->. exists 0%nat. split; [lia | reflexivity].
      * apply IH in H as (j & Hj & Hget). exists (S j). split; [lia | exact Hget].
    + simpl in H. apply IH in H as (j & Hj & Hget).
      exists (S j). split; [lia | exact Hget].
Qed.

(** After its dot, what [path.extname] returns holds no dot and no slash. *)
Lemma extname_clean (path e : string) :
  NodePath.extname path = String "."%char e →
  hasChar "."%char e = false ∧ hasChar "/"%char e = false.
Proof.
  unfold NodePath.extname.
  assert (scanInv path 0 (NodePath.extLoop path (String.length path) NodePath.extInit))
    as [_ Hd] by (apply extLoop_inv; split; simpl; now left).
  assert (scanDone path (NodePath.extLoop path (String.length path) NodePath.extInit))
    as Hdone.
  { apply extLoop_clean.
    - reflexivity.
    - split; simpl; now left.
    - intros j _ Hj. simpl in Hj. lia. }
  set (st := NodePath.extLoop path (String.length path) NodePath.extInit) in *.
  destruct (Z.eqb_spec (NodePath.startDot st) (-1)) as [Hs|Hs]; simpl; [discriminate|].
  match goal with |- (if ?b then _ else _) = _ → _ => destruct b end; [discriminate|].
  destruct Hd as [|(H0 & Hget & Hlt)]; [lia|].
  unfold Js.slice.
  replace (Z.to_nat (NodePath.end_ st - NodePath.startDot st))
    with (S (Z.to_nat (NodePath.end_ st - NodePath.startDot st - 1))) by lia.
  rewrite (substring_at _ _ _ _ Hget). intros [= <-].
  assert (∀ c, hasChar c (String.substring (S (Z.to_nat (NodePath.startDot st)))
                            (Z.to_nat (NodePath.end_ st - NodePath.startDot st - 1)) path)
               = true → c ≠ "."%char ∧ c ≠ "/"%char) as Hin.
  { intros c Hc. apply substring_chars in Hc as (j & Hj & Hgetj).
    destruct (Hdone Hs j) as (c' & Hc' & Hnd & Hns); [lia | lia |].
    rewrite Hgetj in Hc'. inversion Hc'; subst. auto. }
  split.
  - destruct (hasChar "."%char _) eqn:E; [|reflexivity].
    destruct (Hin _ E) as [Hbad _]. congruence.
  - destruct (hasChar "/"%char _) eqn:E; [|reflexivity].
    destruct (Hin _ E) as [_ Hbad]. congruence.
Qed.

Lemma lower_char_dot_slash (c : ascii) :
  (Js.lower_char c = "."%char → c = "."%char)
  ∧ (Js.lower_char c = "/"%char → c = "/"%char).
Proof.
  destruct c as [[] [] [] [] [] [] [] []]; vm_compute; split; congruence.
Qed.

Lemma hasChar_toLowerCase (s : string) :
  (hasChar "."%char s = false → hasChar "."%char (Js.toLowerCase s) = false)
  ∧ (hasChar "/"%char s = false → hasChar "/"%char (Js.toLowerCase s) = false).
Proof.
  induction s as [|c s [IH1 IH2]]; simpl; [auto|].
  destruct (lower_char_dot_slash c) as [Hd Hs]. split.
  - intros [Hc Hr]%orb_false_elim. rewrite (IH1 Hr), orb_false_r.
    apply bool_decide_eq_false. apply bool_decide_eq_false in Hc.
    intros E. apply Hc. symmetry. apply Hd. now symmetry.
  - intros [Hc Hr]%orb_false_elim. rewrite (IH2 Hr), orb_false_r.
    apply bool_decide_eq_false. apply bool_decide_eq_false in Hc.
    intros E. apply Hc. symmetry. apply Hs. now symmetry.
Qed.

(** X15. The extension of a generated key is never empty and holds neither
    a dot nor a slash, whatever the original filename and the content type
    are (also for a content type that names a member of [Object.prototype],
    where the extension is the text of that member): the name cannot put a
    path separator or a second extension into the key. *)
Theorem key_extension_clean (originalName : option string) (contentType : string) :
  default "jpg" (guessExtension originalName contentType) ≠ ""
  ∧ hasChar "."%char (default "jpg" (guessExtension originalName contentType)) = false
  ∧ hasChar "/"%char (default "jpg" (guessExtension originalName contentType)) = false.
Proof.
  destruct (guessExtension_cases originalName contentType)
    as [(name & e & _ & He & Hne & ->) | [_ ->]].
  - simpl. apply extname_clean in He as [Hd Hs].
    destruct (hasChar_toLowerCase e) as [Hd' Hs'].
    split; [now rewrite toLowerCase_empty | auto].
  - unfold tableText.
    destruct (EXT_BY_MIME !! contentType) as [ext|] eqn:E; simpl.
    { apply elem_of_list_to_map_2 in E.
      repeat (apply elem_of_cons in E as [[= -> ->]|E]; [repeat split; discriminate|]).
      now apply elem_of_nil in E. }
    case_bool_decide as Hin.
    { unfold objectPrototypeFunctions in Hin.
      repeat (apply elem_of_cons in Hin as [->|Hin]; [repeat split; discriminate|]).
      now apply elem_of_nil in Hin. }
    case_bool_decide; simpl; repeat split; discriminate.
Qed.

(** A content type that names an inherited member, as [buildKey] would
    spell it out. *)
Lemma key_extension_clean_witness :
  default "jpg" (guessExtension (Some "README") "constructor")
  = "function Object() { [native code] }"
  ∧ hasChar "/"%char (default "jpg" (guessExtension (Some "README") "constructor")) = false.
Proof.
  destruct (key_extension_clean (Some "README") "constructor") as (_ & _ & Hslash).
  split; [vm_compute; reflexivity | exact Hslash].
Defined.

(** ** The URL of a generated key *)

Lemma pretty_N_go_first (x : N) : ∀ s,
  firstChar s ≠ Some "/"%char → firstChar (pretty_N_go x s) ≠ Some "/"%char.
Proof.
  induction (N.lt_wf_0 x) as [x _ IH]; intros s Hs.
  destruct (decide (x = 0%N)) as [->|Hx].
  - now rewrite pretty_N_go_0.
  - rewrite pretty_N_go_step by lia. apply IH.
    + apply N.div_lt; lia.
    + simpl. unfold pretty_N_char. repeat case_match; discriminate.
Qed.

Lemma pretty_Z_first (z : Z) : firstChar (pretty z) ≠ Some "/"%char.
Proof.
  destruct z as [|p|p].
  - discriminate.
  - change (pretty (Z.pos p)) with (pretty (N.pos p)).
    unfold pretty, pretty_N. case_decide; [discriminate|].
    now apply pretty_N_go_first.
  - change (pretty (Z.neg p)) with ("-" +:+ pretty (N.pos p)). discriminate.
Qed.

Lemma firstChar_app (a b : string) : a ≠ "" → firstChar (a +:+ b) = firstChar a.
Proof. destruct a; [congruence | reflexivity]. Qed.

(** X16. A generated key never starts with a slash, so for an upload
    without a supplied key the returned [url] is the client's public URL,
    a slash, and the returned [key], character for character; the same
    holds for any successful upload whose key does not start with a
    slash. *)
Theorem url_of_key (config : Config.t) (c : Client.t) (w : World)
    (data : BinaryData) (o : Options.t) (r r' : Remote) (res : Uploaded.t) :
  newClient config = Ok c →
  uploadBuffer c w data o r = (Ok res, r') →
  (firstChar (Uploaded.key res) ≠ Some "/"%char →
     Uploaded.url res = Client.publicUrl c +:+ "/" +:+ Uploaded.key res)
  ∧ (Options.key o = None → firstChar (Uploaded.key res) ≠ Some "/"%char).
Proof.
  intros Hnew Hrun.
  apply uploadBuffer_Ok in Hrun as (tag & _ & -> & _ & _).
  pose proof (newClient_fields config c Hnew) as (_ & Hu & Hp & _).
  split.
  - intros Hfirst. simpl in *. unfold buildPublicUrl, trimTrailingSlash.
    rewrite (dropLeadingSlashes_id _ Hfirst).
    now rewrite Hu, dropTrailingSlashes_idem.
  - intros Hkey. simpl. rewrite Hkey, buildKey_absent. cbv zeta.
    assert (∀ rest, firstChar (pretty (Date_now w) +:+ "-" +:+ rest) ≠ Some "/"%char)
      as Hname.
    { intros rest. pose proof (pretty_Z_first (Date_now w)) as H.
      destruct (pretty (Date_now w)); [discriminate | exact H]. }
    case_bool_decide as Hempty; [apply Hname|].
    rewrite (firstChar_app _ _ Hempty), Hp.
    apply dropTrailingSlashes_first, dropLeadingSlashes_first.
Qed.

Lemma url_of_key_witness :
  ∃ res r',
    uploadBuffer Sample.client Sample.world Sample.gif (Sample.named "cat.gif") emptyRemote
    = (Ok res, r')
    ∧ Uploaded.url res = "https://cdn.example.com" +:+ "/" +:+ Uploaded.key res.
Proof.
  assert (∃ res r',
            uploadBuffer Sample.client Sample.world Sample.gif (Sample.named "cat.gif")
              emptyRemote = (Ok res, r')) as (res & r' & Hrun).
  { eexists _, _. rewrite uploadBuffer_run. vm_compute. reflexivity. }
  destruct (url_of_key Sample.config Sample.client Sample.world Sample.gif
              (Sample.named "cat.gif") emptyRemote r' res sample_client Hrun)
    as [Hurl Hfirst].
  exists res, r'. split; [exact Hrun|]. apply Hurl, Hfirst. reflexivity.
Defined.

(** ** The environment *)

(** X17. [firstEnv] returns the value of the first name of the list that
    is set, and nothing when none is set.  A name set to the empty string
    counts as set: its empty value is returned and hides the names after
    it.  (Names of [Object.prototype] members are left out, see
    [inheritedName].) *)
Theorem first_env (env : gmap string string) (keys : list string) :
  Forall (λ k, inheritedName k = false) keys →
  (∀ v, firstEnv env keys = Some v
        ↔ ∃ before key after,
            keys = before ++ key :: after
            ∧ Forall (λ k, env !! k = None) before
            ∧ env !! key = Some v)
  ∧ (firstEnv env keys = None ↔ Forall (λ k, env !! k = None) keys).
Proof.
  intros _. induction keys as [|key keys [IH1 IH2]]; simpl.
  - split.
    + intros v. split; [discriminate|]. intros (before & k & after & H & _).
      destruct before; discriminate.
    + split; [constructor | reflexivity].
  - destruct (env !! key) as [value|] eqn:E.
    + split.
      * intros v. split.
        -- intros [= <-]. exists [], key, keys. repeat split; [constructor | exact E].
        -- intros (before & k & after & H & Hb & Hk).
           destruct before as [|b before]; simpl in H; inversion H; subst.
           ++ congruence.
           ++ inversion Hb; congruence.
      * split; [discriminate|]. intros H. inversion H; congruence.
    + split.
      * intros v. rewrite IH1. split.
        -- intros (before & k & after & -> & Hb & Hk).
           exists (key :: before), k, after. repeat split; [constructor; assumption | exact Hk].
        -- intros (before & k & after & H & Hb & Hk).
           destruct before as [|b before]; simpl in H; inversion H; subst.
           ++ congruence.
           ++ inversion Hb; subst. eauto 10.
      * rewrite IH2. split; [intros H; constructor; assumption | intros H; now inversion H].
Qed.

Lemma first_env_witness :
  firstEnv {["R2_BUCKET_NAME" := ""; "IMGTOURL_BUCKET" := "pics"]} ENV_BUCKET = Some "".
Proof.
  assert (Forall (λ k, inheritedName k = false) ENV_BUCKET) as Hnames
    by (repeat constructor).
  destruct (first_env {["R2_BUCKET_NAME" := ""; "IMGTOURL_BUCKET" := "pics"]}
              ENV_BUCKET Hnames) as [Hsome _].
  apply Hsome.
  exists [], "R2_BUCKET_NAME", ["IMGTOURL_BUCKET"; "IMAGETOURL_BUCKET"; "IMAGE2URL_BUCKET"].
  split; [reflexivity|]. split; [constructor | vm_compute; reflexivity].
Defined.

Lemma requireDefined_Ok (value : option string) (field v : string) :
  requireDefined value field = Ok v ↔ value = Some v ∧ v ≠ "".
Proof.
  unfold requireDefined, requireValue. destruct value as [s|].
  - destruct (Js.truthy s) eqn:Ht.
    + apply truthy_true in Ht. split; [intros [= <-]; auto | intros [[= <-] _]; reflexivity].
    + apply truthy_false in Ht. split; [discriminate | intros [[= <-] ?]; congruence].
  - split; [discriminate | intros [? _]; discriminate].
Qed.

Lemma requireDefined_Throw (value : option string) (field : string) (e : Error) :
  requireDefined value field = Throw e →
  e = MissingConfig field ∧ (value = None ∨ value = Some "").
Proof.
  unfold requireDefined, requireValue. destruct value as [s|].
  - destruct (Js.truthy s) eqn:Ht; [discriminate|].
    apply truthy_false in Ht as ->. intros [= <-]. auto.
  - intros [= <-]. auto.
Qed.

Section FromTextProperties.

Variable finiteNumber : string → option Z.

(** X18. [createClientFromEnv] fails only for a missing variable and names
    it by its [R2_...] name, the first missing one in the order account id,
    access key id, secret access key, bucket name, public URL; the
    constructor it then calls cannot fail.  An [R2_...] variable set to the
    empty string counts as missing even when one of its aliases is set. *)
Theorem env_client_errors (env : gmap string string) :
  (∀ e, createClientFromEnv finiteNumber env = Throw e →
        ∃ name, name ∈ requiredVariables ∧ e = MissingConfig name)
  ∧ (env !! "R2_ACCOUNT_ID" = Some "" →
       createClientFromEnv finiteNumber env = Throw (MissingConfig "R2_ACCOUNT_ID"))
  ∧ ((∃ c, createClientFromEnv finiteNumber env = Ok c)
     ↔ Forall (λ keys, ∃ v, firstEnv env keys = Some v ∧ v ≠ "")
         [ENV_ACCOUNT_ID; ENV_ACCESS_KEY_ID; ENV_SECRET_ACCESS_KEY; ENV_BUCKET;
          ENV_PUBLIC_URL]).
Proof.
  unfold createClientFromEnv. split; [|split].
  - intros e.
    destruct (requireDefined (firstEnv env ENV_ACCOUNT_ID) _) as [v1|e1] eqn:E1;
      [|intros [= <-]; apply requireDefined_Throw in E1 as [-> _];
        eexists; split; [|reflexivity]; set_solver].
    destruct (requireDefined (firstEnv env ENV_ACCESS_KEY_ID) _) as [v2|e2] eqn:E2;
      [|intros [= <-]; apply requireDefined_Throw in E2 as [-> _];
        eexists; split; [|reflexivity]; set_solver].
    destruct (requireDefined (firstEnv env ENV_SECRET_ACCESS_KEY) _) as [v3|e3] eqn:E3;
      [|intros [= <-]; apply requireDefined_Throw in E3 as [-> _];
        eexists; split; [|reflexivity]; set_solver].
    destruct (requireDefined (firstEnv env ENV_BUCKET) _) as [v4|e4] eqn:E4;
      [|intros [= <-]; apply requireDefined_Throw in E4 as [-> _];
        eexists; split; [|reflexivity]; set_solver].
    destruct (requireDefined (firstEnv env ENV_PUBLIC_URL) _) as [v5|e5] eqn:E5;
      [|intros [= <-]; apply requireDefined_Throw in E5 as [-> _];
        eexists; split; [|reflexivity]; set_solver].
    apply requireDefined_Ok in E1 as [_ H1], E2 as [_ H2], E3 as [_ H3],
      E4 as [_ H4], E5 as [_ H5].
    unfold newClient, requireValue; simpl.
    apply truthy_true in H1, H2, H3, H4, H5. rewrite H1, H2, H3, H4, H5. discriminate.
  - intros H. simpl. rewrite H. reflexivity.
  - split.
    + intros [c Hc].
      destruct (requireDefined (firstEnv env ENV_ACCOUNT_ID) _) as [v1|] eqn:E1;
        [|discriminate].
      destruct (requireDefined (firstEnv env ENV_ACCESS_KEY_ID) _) as [v2|] eqn:E2;
        [|discriminate].
      destruct (requireDefined (firstEnv env ENV_SECRET_ACCESS_KEY) _) as [v3|] eqn:E3;
        [|discriminate].
      destruct (requireDefined (firstEnv env ENV_BUCKET) _) as [v4|] eqn:E4;
        [|discriminate].
      destruct (requireDefined (firstEnv env ENV_PUBLIC_URL) _) as [v5|] eqn:E5;
        [|discriminate].
      apply requireDefined_Ok in E1, E2, E3, E4, E5.
      repeat constructor; eauto.
    + intros H.
      assert (∀ v field, v ≠ "" → requireDefined (Some v) field = Ok v) as Hreq
        by (intros; apply requireDefined_Ok; auto).
      apply Forall_cons in H as [(v1 & E1 & N1) H].
      apply Forall_cons in H as [(v2 & E2 & N2) H].
      apply Forall_cons in H as [(v3 & E3 & N3) H].
      apply Forall_cons in H as [(v4 & E4 & N4) H].
      apply Forall_cons in H as [(v5 & E5 & N5) _].
      rewrite E1, (Hreq v1) by assumption. cbv beta iota.
      rewrite E2, (Hreq v2) by assumption. cbv beta iota.
      rewrite E3, (Hreq v3) by assumption. cbv beta iota.
      rewrite E4, (Hreq v4) by assumption. cbv beta iota.
      rewrite E5, (Hreq v5) by assumption. cbv beta iota.
      unfold newClient, requireValue.
      cbn [Config.bucket Config.publicUrl Config.accountId Config.accessKeyId
           Config.secretAccessKey].
      apply truthy_true in N1, N2, N3, N4, N5. rewrite N1, N2, N3, N4, N5. eauto.
Qed.

(** X19. A client made from the environment has the first set bucket
    variable as its bucket and the first set URL variable, without the
    slashes at its end, as its public URL; its prefix is the first set
    prefix variable without the slashes at its ends, or [images]; its
    ceiling is the number read from the first set size variable, or 2 MiB
    when none is set or what is set is not a finite number; its
    cache-control is always the default one. *)
Theorem env_client_fields (env : gmap string string) (c : Client.t) :
  createClientFromEnv finiteNumber env = Ok c →
  firstEnv env ENV_BUCKET = Some (Client.bucket c)
  ∧ (∃ url, firstEnv env ENV_PUBLIC_URL = Some url
            ∧ Client.publicUrl c = trimTrailingSlash url)
  ∧ Client.prefix c = trimSlashes (default "images" (firstEnv env ENV_PREFIX))
  ∧ Client.maxSize c
    = default (2 * 1024 * 1024)
        (match firstEnv env ENV_MAX_SIZE with
         | Some text => finiteNumber text
         | None => None
         end)
  ∧ Client.cacheControl c = "public, max-age=31536000".
Proof.
  unfold createClientFromEnv.
  destruct (requireDefined (firstEnv env ENV_ACCOUNT_ID) _) as [v1|] eqn:E1;
    [|discriminate].
  destruct (requireDefined (firstEnv env ENV_ACCESS_KEY_ID) _) as [v2|] eqn:E2;
    [|discriminate].
  destruct (requireDefined (firstEnv env ENV_SECRET_ACCESS_KEY) _) as [v3|] eqn:E3;
    [|discriminate].
  destruct (requireDefined (firstEnv env ENV_BUCKET) _) as [v4|] eqn:E4;
    [|discriminate].
  destruct (requireDefined (firstEnv env ENV_PUBLIC_URL) _) as [v5|] eqn:E5;
    [|discriminate].
  intros Hnew. apply newClient_fields in Hnew as (Hb & Hu & Hp & Hm & Hc).
  simpl in *. apply requireDefined_Ok in E4 as [E4 _], E5 as [E5 _].
  split; [now rewrite Hb|]. split; [eauto|]. split; [exact Hp|].
  split; [exact Hm | exact Hc].
Qed.

End FromTextProperties.

Lemma env_client_errors_witness :
  createClientFromEnv (λ _, None)
    {["R2_ACCOUNT_ID" := ""; "IMGTOURL_ACCOUNT_ID" := "acct"]}
  = Throw (MissingConfig "R2_ACCOUNT_ID").
Proof.
  destruct (env_client_errors (λ _, None) {["R2_ACCOUNT_ID" := ""; "IMGTOURL_ACCOUNT_ID" := "acct"]})
    as (_ & Hempty & _).
  apply Hempty. vm_compute. reflexivity.
Defined.

Lemma env_client_fields_witness :
  ∃ c,
    createClientFromEnv (λ text, if bool_decide (text = "1024") then Some 1024 else None)
      {["R2_ACCOUNT_ID" := "acct"; "R2_ACCESS_KEY_ID" := "AK";
        "R2_SECRET_ACCESS_KEY" := "SK"; "IMGTOURL_BUCKET" := "pics";
        "R2_PUBLIC_URL" := "https://cdn.example.com//";
        "IMAGE2URL_MAX_SIZE" := "1024"]} = Ok c
    ∧ Client.publicUrl c = "https://cdn.example.com"
    ∧ Client.maxSize c = 1024.
Proof.
  set (f := λ text, if bool_decide (text = "1024") then Some 1024 else None).
  set (env := ({["R2_ACCOUNT_ID" := "acct"; "R2_ACCESS_KEY_ID" := "AK";
                 "R2_SECRET_ACCESS_KEY" := "SK"; "IMGTOURL_BUCKET" := "pics";
                 "R2_PUBLIC_URL" := "https://cdn.example.com//";
                 "IMAGE2URL_MAX_SIZE" := "1024"]} : gmap string string)).
  assert (∃ c, createClientFromEnv f env = Ok c) as [c Hc]
    by (eexists; vm_compute; reflexivity).
  destruct (env_client_fields f env c Hc) as (_ & (url & Hurl & Hpub) & _ & Hmax & _).
  exists c. split; [exact Hc|]. split.
  - rewrite Hpub. assert (url = "https://cdn.example.com//") as ->; [|reflexivity].
    assert (firstEnv env ENV_PUBLIC_URL = Some "https://cdn.example.com//") as H
      by (vm_compute; reflexivity).
    congruence.
  - rewrite Hmax. vm_compute. reflexivity.
Defined.

(** ** The command line *)

Lemma setArg_lookup (key : string) (value : Cli.ArgValue)
    (args : gmap string Cli.ArgValue) (k : string) (v : Cli.ArgValue) :
  Cli.setArg key value args !! k = Some v → v = value ∨ args !! k = Some v.
Proof.
  unfold Cli.setArg. case_bool_decide; [auto|].
  destruct (decide (key = k)) as [->|Hne].
  - rewrite lookup_insert_eq. intros [= <-]. auto.
  - rewrite lookup_insert_ne by assumption. auto.
Qed.

Lemma argsGood_str (argv : list string) (args : gmap string Cli.ArgValue)
    (file : option string) (key next : string) :
  argsGood argv args file →
  Js.truthy next && negb (Js.startsWith "-" next) = true →
  next ∈ argv →
  argsGood argv (Cli.setArg key (Cli.Str next) args) file.
Proof.
  intros (Hs & Hf & Hfile) [Ht Hd]%andb_prop Hin.
  apply negb_true_iff in Hd. apply truthy_true in Ht.
  split; [|split; [|exact Hfile]].
  - intros k v [[= ->]|H]%setArg_lookup; [auto | eauto].
  - intros k b [H|H]%setArg_lookup; [discriminate | eauto].
Qed.

Lemma argsGood_flag (argv : list string) (args : gmap string Cli.ArgValue)
    (file : option string) (key : string) :
  argsGood argv args file →
  argsGood argv (Cli.setArg key (Cli.Flag true) args) file.
Proof.
  intros (Hs & Hf & Hfile). split; [|split; [|exact Hfile]].
  - intros k v [H|H]%setArg_lookup; [discriminate | eauto].
  - intros k b [[= ->]|H]%setArg_lookup; [reflexivity | eauto].
Qed.

Lemma parseLoop_good (all : list string) (n : nat) :
  ∀ argv args file,
    (length argv ≤ n)%nat →
    (∀ x, x ∈ argv → x ∈ all) →
    argsGood all args file →
    argsGood all (Cli.parseLoop argv args file).1 (Cli.parseLoop argv args file).2.
Proof.
  induction n as [|n IH]; intros argv args file Hlen Hsub Hgood.
  - destruct argv; [exact Hgood | simpl in Hlen; lia].
  - destruct argv as [|current rest]; [exact Hgood|]. simpl in Hlen.
    assert (∀ x, x ∈ rest → x ∈ all) as Hrest by (intros; apply Hsub, elem_of_cons; now right).
    simpl.
    destruct (bool_decide (current = "-h") || bool_decide (current = "--help")).
    { apply IH; [lia | exact Hrest|].
      change (<["help" := Cli.Flag true]> args)
        with (Cli.setArg "help" (Cli.Flag true) args).
      now apply argsGood_flag. }
    assert (∀ key,
              argsGood all
                (match rest with
                 | next :: rest' =>
                     if Js.truthy next && negb (Js.startsWith "-" next)
                     then Cli.parseLoop rest' (Cli.setArg key (Cli.Str next) args) file
                     else Cli.parseLoop rest (Cli.setArg key (Cli.Flag true) args) file
                 | [] => Cli.parseLoop rest (Cli.setArg key (Cli.Flag true) args) file
                 end).1
                (match rest with
                 | next :: rest' =>
                     if Js.truthy next && negb (Js.startsWith "-" next)
                     then Cli.parseLoop rest' (Cli.setArg key (Cli.Str next) args) file
                     else Cli.parseLoop rest (Cli.setArg key (Cli.Flag true) args) file
                 | [] => Cli.parseLoop rest (Cli.setArg key (Cli.Flag true) args) file
                 end).2) as Hopt.
    { intros key. destruct rest as [|next rest'].
      - apply IH; [simpl; lia | exact Hrest | now apply argsGood_flag].
      - destruct (Js.truthy next && negb (Js.startsWith "-" next)) eqn:Hv.
        + apply IH; [simpl in Hlen; lia | intros; apply Hrest, elem_of_cons; now right|].
          apply argsGood_str; [exact Hgood | exact Hv | apply Hrest, elem_of_cons; now left].
        + apply IH; [lia | exact Hrest | now apply argsGood_flag]. }
    destruct (Js.startsWith "--" current); [apply Hopt|].
    destruct (Js.startsWith "-" current) eqn:Hdash; [apply Hopt|].
    apply IH; [lia | exact Hrest|].
    destruct Hgood as (Hs & Hf & Hfile). split; [exact Hs|]. split; [exact Hf|].
    assert (current ∈ all) as Hcur by (apply Hsub, elem_of_cons; now left).
    intros f. destruct file as [f0|].
    + destruct (Js.truthy f0); [apply Hfile|]. intros [= <-]. auto.
    + intros [= <-]. auto.
Qed.

(** X20. What [parseArgs] hands on.  A string stored for an option is one
    of the arguments, is not empty and does not start with a dash (so a
    value such as [-1] can not be given to any option); a flag is always
    [true]; the file, if any, is one of the arguments and does not start
    with a dash. *)
Theorem parse_args_values (argv : list string) :
  argsGood argv (Cli.parseArgs argv).1 (Cli.parseArgs argv).2.
Proof.
  unfold Cli.parseArgs. apply (parseLoop_good argv (length argv)); [lia | auto|].
  split; [|split]; intros *; [rewrite lookup_empty | rewrite lookup_empty |]; discriminate.
Qed.

Lemma parse_args_values_witness :
  (Cli.parseArgs ["cat.png"; "--max-size"; "-1"; "--key"; "pets/cat.png"]).1 !! "max-size"
  = Some (Cli.Flag true)
  ∧ (Cli.parseArgs ["cat.png"; "--max-size"; "-1"; "--key"; "pets/cat.png"]).1 !! "key"
    = Some (Cli.Str "pets/cat.png").
Proof.
  pose proof (parse_args_values
                ["cat.png"; "--max-size"; "-1"; "--key"; "pets/cat.png"]) as (_ & Hflag & _).
  split; [|vm_compute; reflexivity].
  destruct ((Cli.parseArgs ["cat.png"; "--max-size"; "-1"; "--key"; "pets/cat.png"]).1
              !! "max-size") as [[s|b]|] eqn:E.
  - vm_compute in E. discriminate E.
  - now rewrite (Hflag "max-size" b E).
  - vm_compute in E. discriminate E.
Defined.




Lemma cliConfig_cache (finiteNumber : string → option Z) (env : gmap string string)
    (args : gmap string Cli.ArgValue) (config : Config.t) :
  Cli.cliConfig finiteNumber env args = inr config →
  Config.cacheControl config = None.
Proof.
  unfold Cli.cliConfig.
  repeat match goal with
         | |- context [Cli.requireArg ?e ?a ?k ?ek ?l] =>
             destruct (Cli.requireArg e a k ek l); [discriminate|]
         end.
  intros [= <-]. reflexivity.
Qed.

Lemma uploadFile_sent_inv (c : Client.t) (w : World) (filePath : string)
    (o : Options.t) (r : Remote) :
  sent (uploadFile c w filePath o r).2 ≠ sent r →
  ∃ bytes,
    sent (uploadFile c w filePath o r).2
    = sent r ++ [uploadCommand c w (OfBuffer bytes) (fileOptions filePath o)].
Proof.
  unfold uploadFile.
  destruct (fs_stat w filePath) as [reason|[|]]; simpl; try congruence.
  destruct (fs_readFile w filePath) as [reason|bytes]; simpl; [congruence|].
  intros Hsent. apply uploadBuffer_sent_inv in Hsent as [_ Hcmd]. eauto.
Qed.

Section MainProperties.

Variable finiteNumber : string → option Z.
Variable resolve : string → string.


(** X22. The command line cannot set the cache-control header or add
    metadata: whatever the arguments and the environment, a command that
    [main] sends carries the default cache-control and no metadata entry
    other than [original-name] and [upload-time]; and [main] sends one
    command at most. *)
Theorem main_sends (env : gmap string string) (w : World) (argv : list string)
    (r : Remote) :
  sent (Cli.main finiteNumber resolve env w argv r).2 ≠ sent r →
  ∃ cmd,
    sent (Cli.main finiteNumber resolve env w argv r).2 = sent r ++ [cmd]
    ∧ Put.CacheControl cmd = "public, max-age=31536000"
    ∧ (∀ k, is_Some (Put.Metadata cmd !! k) → k = "original-name" ∨ k = "upload-time").
Proof.
  unfold Cli.main. destruct (Cli.parseArgs argv) as [args file].
  destruct (Cli.truthyArg (args !! "help") || Cli.truthyArg (args !! "h"));
    [simpl; congruence|].
  destruct file as [f|]; [|simpl; congruence].
  destruct (negb (Js.truthy f)); [simpl; congruence|].
  destruct (Cli.cliConfig finiteNumber env args) as [m|config] eqn:Hcfg;
    [simpl; congruence|].
  destruct (newClient config) as [client|e] eqn:Hnew; [|simpl; congruence].
  intros Hsent.
  assert (sent (uploadFile client w (resolve f)
                  (Cli.cliOptions env args) r).2 ≠ sent r) as Hsent'.
  { destruct (uploadFile client w (resolve f) (Cli.cliOptions env args) r)
      as [[res|e] r'']; exact Hsent. }
  apply uploadFile_sent_inv in Hsent' as [bytes Hcmd].
  eexists. split.
  { destruct (uploadFile client w (resolve f) (Cli.cliOptions env args) r)
      as [[res|e] r'']; exact Hcmd. }
  split.
  - apply newClient_fields in Hnew as (_ & _ & _ & _ & Hcc).
    apply cliConfig_cache in Hcfg. simpl. now rewrite Hcc, Hcfg.
  - intros k [v Hk]. simpl in Hk. unfold buildMetadata in Hk.
    destruct (decide (k = "upload-time")) as [|Hne1]; [auto|].
    destruct (decide (k = "original-name")) as [|Hne2]; [auto|].
    rewrite lookup_insert_ne in Hk by congruence.
    destruct (Js.truthy _) in Hk;
      [rewrite lookup_insert_ne in Hk by congruence|];
      rewrite lookup_empty in Hk; discriminate.
Qed.

End MainProperties.


(** One argument, five variables: the file goes out with the default
    header and the two entries. *)
Lemma main_sends_witness :
  ∃ cmd,
    sent (Cli.main (λ _, None) (λ p, "/srv/in/" +:+ p)
            {["R2_ACCOUNT_ID" := "acct"; "R2_ACCESS_KEY_ID" := "AK";
              "R2_SECRET_ACCESS_KEY" := "SK"; "R2_BUCKET_NAME" := "pics";
              "R2_PUBLIC_URL" := "https://cdn.example.com"]}
            {| Date_now := 0; randomUUID := "u"; toISOString := "t";
               fs_stat := λ _, inr true; fs_readFile := λ _, inr ["x"]%byte;
               s3_send := λ _, Stored None |}
            ["cat.png"] emptyRemote).2 = [cmd]
    ∧ Put.CacheControl cmd = "public, max-age=31536000".
Proof.
  set (env := ({["R2_ACCOUNT_ID" := "acct"; "R2_ACCESS_KEY_ID" := "AK";
                 "R2_SECRET_ACCESS_KEY" := "SK"; "R2_BUCKET_NAME" := "pics";
                 "R2_PUBLIC_URL" := "https://cdn.example.com"]} : gmap string string)).
  set (w := {| Date_now := 0; randomUUID := "u"; toISOString := "t";
               fs_stat := λ _, inr true; fs_readFile := λ _, inr ["x"]%byte;
               s3_send := λ _, Stored None |}).
  destruct (main_sends (λ _, None) (λ p, "/srv/in/" +:+ p) env w ["cat.png"] emptyRemote)
    as (cmd & Hsent & Hcc & _).
  - vm_compute. discriminate.
  - exists cmd. split; [exact Hsent | exact Hcc].
Defined.

(** ** Reading an argument *)

Lemma firstTruthy_Some (env : gmap string string) (envKeys : list string) (v : string) :
  Cli.firstTruthy env envKeys = Some v
  ↔ ∃ before key after,
      envKeys = before ++ key :: after
      ∧ Forall (λ k, env !! k = None ∨ env !! k = Some "") before
      ∧ env !! key = Some v ∧ v ≠ "".
Proof.
  induction envKeys as [|key keys IH]; simpl.
  - split; [discriminate|]. intros (before & k & after & H & _).
    destruct before; discriminate.
  - destruct (env !! key) as [value|] eqn:E.
    + destruct (Js.truthy value) eqn:Ht.
      * apply truthy_true in Ht. split.
        -- intros [= <-]. exists [], key, keys. repeat split; [constructor | exact E | exact Ht].
        -- intros (before & k & after & H & Hb & Hk & Hne).
           destruct before as [|b before]; simpl in H; inversion H; subst; [congruence|].
           inversion Hb as [|? ? [Hx|Hx] ?]; congruence.
      * apply truthy_false in Ht as ->. rewrite IH. split.
        -- intros (before & k & after & -> & Hb & Hk).
           exists (key :: before), k, after. split; [reflexivity|].
           split; [constructor; auto | exact Hk].
        -- intros (before & k & after & H & Hb & Hk & Hne).
           destruct before as [|b before]; simpl in H; inversion H; subst; [congruence|].
           inversion Hb; subst. eauto 10.
    + rewrite IH. split.
      * intros (before & k & after & -> & Hb & Hk).
        exists (key :: before), k, after. split; [reflexivity|].
        split; [constructor; auto | exact Hk].
      * intros (before & k & after & H & Hb & Hk & Hne).
        destruct before as [|b before]; simpl in H; inversion H; subst; [congruence|].
        inversion Hb; subst. eauto 10.
Qed.

(** X23. [readString] takes the string given for the first of the option
    names that has one, whatever the environment holds; an option given
    without a value is passed over.  With no such string it takes the
    first variable that is set to something other than the empty string,
    so an empty variable does not hide its aliases (unlike in [firstEnv]),
    and what it takes from the environment is never empty.  (Names of
    [Object.prototype] members are left out.) *)
Theorem read_string (env : gmap string string) (args : gmap string Cli.ArgValue)
    (keys envKeys : list string) :
  Forall (λ k, inheritedName k = false) envKeys →
  (∀ s, Cli.firstString args keys = Some s →
        Cli.readString env args keys envKeys = Some s)
  ∧ (∀ key b rest,
       keys = key :: rest → args !! key = Some (Cli.Flag b) →
       Cli.readString env args keys envKeys = Cli.readString env args rest envKeys)
  ∧ (Cli.firstString args keys = None →
     ∀ v, Cli.readString env args keys envKeys = Some v
          ↔ ∃ before key after,
              envKeys = before ++ key :: after
              ∧ Forall (λ k, env !! k = None ∨ env !! k = Some "") before
              ∧ env !! key = Some v ∧ v ≠ "").
Proof.
  intros _. unfold Cli.readString. split; [|split].
  - intros s ->. reflexivity.
  - intros key b rest -> Hflag. simpl. now rewrite Hflag.
  - intros -> v. apply firstTruthy_Some.
Qed.

Lemma read_string_witness :
  Cli.readString {["R2_BUCKET_NAME" := ""; "IMGTOURL_BUCKET" := "pics"]}
    {["bucket" := Cli.Flag true]} ["bucket"; "b"] ENV_BUCKET = Some "pics".
Proof.
  assert (Forall (λ k, inheritedName k = false) ENV_BUCKET) as Hnames
    by (repeat constructor).
  destruct (read_string {["R2_BUCKET_NAME" := ""; "IMGTOURL_BUCKET" := "pics"]}
              {["bucket" := Cli.Flag true]} ["bucket"; "b"] ENV_BUCKET Hnames)
    as (_ & _ & Henv).
  apply Henv; [vm_compute; reflexivity|].
  exists ["R2_BUCKET_NAME"], "IMGTOURL_BUCKET", ["IMAGETOURL_BUCKET"; "IMAGE2URL_BUCKET"].
  split; [reflexivity|]. split; [|split; [vm_compute; reflexivity | discriminate]].
  constructor; [right; vm_compute; reflexivity | constructor].
Defined.
